(** * Crime AI API server: the text scorer, the threat log and the predictors

    A shallow embedding of the API server module (the [handler] module with
    [analyzeText], [calculateProbability], [checkRateLimit] and the routes)
    and the properties of its scoring and aggregation engine.

    Conventions.
    - A JavaScript string is the list of its UTF-16 code units ([JSString]);
      [length], [slice], [includes] and the regular expressions of the module
      (none has the [u] flag) all work on code units.
    - A JavaScript number holding an integer is a [Z]; the one place where the
      module multiplies by a fraction (the factor 1.3) is computed in [Q].
    - What the module reads from its environment (the clock, [Math.random],
      the Unicode lower-casing of [String.prototype.toLowerCase]) is an
      explicit argument. *)

From Stdlib Require Import String Ascii ZArith List Bool Lia QArith Qround Qminmax.
Import ListNotations.
Open Scope Z_scope.

Set Implicit Arguments.

(** ** JavaScript strings *)

Definition JSString := list Z.

(** A literal made of ASCII characters only. *)
Definition str (s : string) : JSString :=
  map (fun a => Z.of_nat (nat_of_ascii a)) (list_ascii_of_string s).

Fixpoint jsstr_eqb (a b : JSString) : bool :=
  match a, b with
  | [], [] => true
  | x :: a', y :: b' => (x =? y) && jsstr_eqb a' b'
  | _, _ => false
  end.

(** [s.startsWith(p)] *)
Fixpoint startsWith (s p : JSString) : bool :=
  match p, s with
  | [], _ => true
  | _ :: _, [] => false
  | y :: p', x :: s' => (x =? y) && startsWith s' p'
  end.

(** [s.includes(p)]: [p] occurs in [s] at some position. *)
Fixpoint includes (s p : JSString) : bool :=
  startsWith s p ||
  match s with
  | [] => false
  | _ :: s' => includes s' p
  end.

(** [arr.includes(x)] on an array of strings. *)
Definition array_includes (arr : list JSString) (x : JSString) : bool :=
  existsb (jsstr_eqb x) arr.

(** [s.length] and [arr.length] *)
Definition len {A} (l : list A) : Z := Z.of_nat (length l).

(** [s.slice(0, n)] and [arr.slice(0, n)] for [0 <= n]. *)
Definition slice0 {A} (n : Z) (l : list A) : list A := firstn (Z.to_nat n) l.

(** [arr.slice(-n)] for [0 < n]: the last [n] elements. *)
Definition slice_last {A} (n : Z) (l : list A) : list A :=
  skipn (Z.to_nat (Z.max (len l - n) 0)) l.

(** [s.substr(start, count)] for [0 <= start] and [0 <= count]. *)
Definition substr (start count : Z) (s : JSString) : JSString :=
  firstn (Z.to_nat count) (skipn (Z.to_nat start) s).

(** WhiteSpace and LineTerminator code units, as stripped by [trim] and
    matched by the class escape [\s]. *)
Definition isWhiteSpace (c : Z) : bool :=
  ((9 <=? c) && (c <=? 13)) || (c =? 32) || (c =? 160) || (c =? 5760) ||
  ((8192 <=? c) && (c <=? 8202)) || (c =? 8232) || (c =? 8233) ||
  (c =? 8239) || (c =? 8287) || (c =? 12288) || (c =? 65279).

Fixpoint trimStart (s : JSString) : JSString :=
  match s with
  | c :: s' => if isWhiteSpace c then trimStart s' else s
  | [] => []
  end.

Definition trim (s : JSString) : JSString :=
  rev (trimStart (rev (trimStart s))).

(** The character class [[一-龥]] of the module. *)
Definition isChinese (c : Z) : bool := (19968 <=? c) && (c <=? 40869).

(** ASCII case conversions. [toUpperCaseAscii] is [toUpperCase] on the
    alphabet of [Number.prototype.toString(36)]; [toLowerCaseAscii] is
    [toLowerCase] on strings whose code units are ASCII or have no case
    (the ideographs, for one). *)
Definition upperAscii (c : Z) : Z :=
  if (97 <=? c) && (c <=? 122) then c - 32 else c.
Definition lowerAscii (c : Z) : Z :=
  if (65 <=? c) && (c <=? 90) then c + 32 else c.
Definition toUpperCaseAscii (s : JSString) : JSString := map upperAscii s.
Definition toLowerCaseAscii (s : JSString) : JSString := map lowerAscii s.

(** ** Regular expressions

    The fragment used by [PATTERNS]: literals, [.], [\d], [\s], sequence,
    alternation and the greedy quantifiers; all patterns carry the flag [i]
    and none the flags [g], [s] or [u].  Capture groups only delimit
    alternatives here (the module reads [match[0]] alone), so they are not
    represented. *)

Inductive regex : Type :=
| Eps : regex
| Lit : Z -> regex
| Dot : regex
| Digit : regex
| Space : regex
| Cat : regex -> regex -> regex
| Alt : regex -> regex -> regex
| Star : regex -> regex.

Definition Plus (r : regex) : regex := Cat r (Star r).
Definition Opt (r : regex) : regex := Alt r Eps.

Fixpoint lit (s : JSString) : regex :=
  match s with
  | [] => Eps
  | [c] => Lit c
  | c :: s' => Cat (Lit c) (lit s')
  end.

Fixpoint alts (rs : list regex) : regex :=
  match rs with
  | [] => Eps
  | [r] => r
  | r :: rs' => Alt r (alts rs')
  end.

Fixpoint cats (rs : list regex) : regex :=
  match rs with
  | [] => Eps
  | [r] => r
  | r :: rs' => Cat r (cats rs')
  end.

(** Canonicalize under [i] without [u]: a code unit is compared through its
    upper-case form, except that a code unit of 128 or more never
    canonicalizes to one below 128.  Every literal of [PATTERNS] is an ASCII
    character or an ideograph, for which this is the ASCII upper-casing. *)
Definition canonicalize (c : Z) : Z := upperAscii c.

Definition isLineTerminator (c : Z) : bool :=
  (c =? 10) || (c =? 13) || (c =? 8232) || (c =? 8233).

Definition isDigit (c : Z) : bool := (48 <=? c) && (c <=? 57).

(** The backtracking matcher: [rmatch r s k] tries the ways [r] can match a
    prefix of [s] in the priority order of the language (left alternative
    first, longest repetition first) and hands the rest to the continuation
    [k]; the first success wins. *)
Fixpoint rmatch (r : regex) (s : JSString)
    (k : JSString -> option JSString) {struct r} : option JSString :=
  let one (p : Z -> bool) :=
    match s with
    | c :: s' => if p c then k s' else None
    | [] => None
    end in
  match r with
  | Eps => k s
  | Lit x => one (fun c => canonicalize c =? canonicalize x)
  | Dot => one (fun c => negb (isLineTerminator c))
  | Digit => one isDigit
  | Space => one isWhiteSpace
  | Cat a b => rmatch a s (fun s' => rmatch b s' k)
  | Alt a b =>
      match rmatch a s k with
      | Some x => Some x
      | None => rmatch b s k
      end
  | Star a =>
      (fix loop (fuel : nat) (s : JSString) {struct fuel} : option JSString :=
         match fuel with
         | O => k s
         | S fuel' =>
             match rmatch a s (fun s' =>
                     if (length s' <? length s)%nat then loop fuel' s'
                     else None) with
             | Some x => Some x
             | None => k s
             end
         end) (S (length s)) s
  end.

(** The match of [r] that starts at the head of [s], as [match[0]]. *)
Definition matchHere (r : regex) (s : JSString) : option JSString :=
  match rmatch r s (fun rest => Some rest) with
  | Some rest => Some (firstn (length s - length rest) s)
  | None => None
  end.

(** [text.match(r)] for a pattern without [g]: the leftmost match, [None]
    for [null]. *)
Fixpoint regex_match (r : regex) (text : JSString) : option JSString :=
  match matchHere r text with
  | Some m => Some m
  | None =>
      match text with
      | [] => None
      | _ :: text' => regex_match r text'
      end
  end.

(** [text.match(/[一-龥]/g)]: every match in order, [None] for
    [null] when there is none. *)
Definition matchAllChinese (text : JSString) : option (list Z) :=
  match filter isChinese text with
  | [] => None
  | cs => Some cs
  end.

(** ** The static tables *)

(** A plain object with string keys none of which is an array index behaves
    as an insertion-ordered map: [Object.entries] lists the keys in the order
    of their first definition, and a key defined again in the literal keeps
    its place and takes the later value. *)
Definition JSObject (V : Type) := list (JSString * V).

Fixpoint defineProperty {V} (o : JSObject V) (key : JSString) (v : V)
    : JSObject V :=
  match o with
  | [] => [(key, v)]
  | (k', v') :: o' =>
      if jsstr_eqb k' key then (k', v) :: o'
      else (k', v') :: defineProperty o' key v
  end.

Definition objectLiteral {V} (props : list (JSString * V)) : JSObject V :=
  fold_left (fun o kv => defineProperty o (fst kv) (snd kv)) props [].

Definition Object_entries {V} (o : JSObject V) : list (JSString * V) := o.

(** The properties of the literal [VIOLENCE_KEYWORDS], as written (three keys
    occur twice); keywords with ideographs are given by their code units. *)
Definition VIOLENCE_KEYWORDS_props : list (JSString * Z) :=
  [
    (str "kill", 95); (str "murder", 100); (str "shoot", 90);
    (str "stab", 85); (str "attack", 80); (str "massacre", 100);
    (str "terrorist", 100); (str "bomb", 100); (str "explosion", 90);
    (str "rape", 100); (str "assault", 85); (str "abuse", 75);
    (str "rampage", 95); (str "threaten", 75); (str "threat", 70);
    (str "revenge", 80); (str "deserve", 95); (str "wipe out", 90);
    (str "eliminate", 85); (str "end it all", 95); (str "going to kill", 100);
    (str "want them dead", 100); (str "make them pay", 95);
    (str "going to shoot", 100); (str "knife attack", 90); (str "gun", 70);
    (str "knife", 65); (str "weapon", 75); (str "arsenal", 80);
    (str "firearm", 75); (str "rifle", 65); (str "ammunition", 70);
    (str "pistol", 70); (str "shotgun", 75); (str "suicide", 90);
    (str "kill myself", 95); (str "end it all", 95); (str "want to die", 90);
    (str "no reason to live", 90); (str "give up", 80); (str "no point", 75);
    (str "hack", 50); (str "breach", 55); (str "ddos", 60);
    (str "malware", 55); (str "ransomware", 65); (str "phishing", 45);
    (str "cyberattack", 70); (str "exploit", 50); (str "backdoor", 55);
    (str "rob", 70); (str "steal", 65); (str "burglary", 60);
    (str "vandalism", 45); (str "fraud", 55); (str "extortion", 70);
    (str "embezzlement", 60); (str "scam", 45); (str "theft", 55);
    (str "harass", 60); (str "stalk", 70); (str "bullying", 55);
    (str "intimidate", 65); (str "doxxing", 55); (str "swatting", 75);
    (str "threats", 70); (str "deepfake", 55); (str "ai attack", 70);
    (str "bioweapon", 90); (str "mass poison", 95); (str "radiation", 85);
    (str "chemical weapon", 90); (str "mass shooting", 100);
    (str "vehicle ramming", 85); (str "gas attack", 90);
    (str "nerve gas", 100); (str "school shooting", 100);
    (str "workplace violence", 85); (str "domestic terrorism", 90);
    (str "lone wolf", 85); (str "ied", 85); (str "pipe bomb", 90);
    (str "voice clone", 65); (str "deep voice", 65);
    (str "synthetic identity", 60); (str "ai fraud", 70);
    (str "deepfake extortion", 75); (str "ai generated abuse", 75);
    (str "acid attack", 90); (str "machete", 80); (str "crossbow", 75);
    (str "crossbow attack", 85); (str "drone attack", 85);
    (str "drone swarm", 85); (str "poison water", 90); ([26432; 20154], 95);
    ([26432], 90); ([26432; 25481], 95); ([26432; 20102; 20182], 100);
    ([23273; 27515], 95); ([28856; 24377], 90); ([28856; 33647], 95);
    ([24341; 29190], 90); ([24656; 24598; 20998; 23376], 95);
    ([24656; 24598; 34989; 20987], 100); ([26538], 60); ([20992], 55);
    ([27494; 22120], 65); ([23376; 24377], 60); ([26538; 25903], 70);
    ([20599], 50); ([25250], 65); ([30423; 31363], 60); ([35784; 39575], 55);
    ([25250; 21163], 70); ([23041; 32961], 70); ([24656; 21523], 70);
    ([39578; 25200], 60); ([33258; 26432], 90); ([36731; 29983], 85);
    ([24819; 27515], 85); ([25253; 22797], 75); ([32465; 26550], 85);
    ([21202; 32034], 70); ([25749; 31080], 100); ([25237; 27602], 85);
    ([32437; 28779], 85); ([36137; 27602], 80); ([27602; 21697], 65);
    ([32593; 26292], 65); ([20154; 32905; 25628; 32034], 70);
    ([24320; 30418], 75); ([32593; 32476; 26292; 21147], 65);
    ([30005; 20449; 35784; 39575], 65); ([26432; 29482; 30424], 70);
    ([97; 105; 35784; 39575], 65); ([97; 105; 25915; 20987], 70);
    ([28145; 20266], 55); ([28145; 24230; 20266; 36896], 60);
    ([35821; 38899; 20811; 38534], 65); ([24324; 27515], 95);
    ([25630; 27515], 90); ([30733; 27515], 90); ([28346; 27515], 85);
    ([28903; 27515], 85); ([30827; 37240], 90); ([20892; 33647], 80);
    ([27696; 21270; 29289], 95); ([38090], 95); ([40657; 31038; 20250], 70);
    ([24110; 27966], 65); ([36172; 22330], 60); ([27927; 38065], 65);
    ([20891; 28779], 80); ([26657; 22253], 60); ([24188; 20799; 22253], 70);
    ([23567; 23398], 60); ([20013; 23398], 55); (str "train attack", 85);
    (str "metro attack", 80); (str "subway attack", 80);
    (str "airport threat", 85); (str "bridge attack", 85);
    (str "tunnel attack", 80); (str "ai impersonation", 70);
    (str "faceless", 65); (str "cloaked", 60); (str "train attack", 85);
    (str "metro attack", 80); (str "electric shock", 75);
    (str "taser attack", 80); (str "package bomb", 90);
    (str "letter bomb", 90); (str "engineered virus", 100);
    (str "synthetic biology", 90); (str "autonomous weapon", 85);
    (str "killer robot", 90)
  ].

Definition VIOLENCE_KEYWORDS : JSObject Z :=
  Eval vm_compute in objectLiteral VIOLENCE_KEYWORDS_props.

Definition CATEGORIES : list (string * list JSString) :=
  [ ("physical_violence"%string,
      map str ["kill"; "murder"; "shoot"; "stab"; "attack"; "beat"; "hurt";
               "assault"; "rampage"; "massacre"]%string);
    ("terrorism"%string,
      map str ["terrorist"; "massacre"; "bomb"; "explosive"; "bioweapon";
               "chemical weapon"; "radiation"]%string);
    ("self_harm"%string,
      map str ["suicide"; "kill myself"; "end it all"; "want to die";
               "give up"; "no reason to live"]%string);
    ("harassment"%string,
      map str ["harass"; "stalk"; "bully"; "threaten"; "doxxing"; "swatting";
               "intimidate"]%string);
    ("property_crime"%string,
      map str ["rob"; "steal"; "burglary"; "fraud"; "extortion"; "scam";
               "embezzlement"]%string);
    ("cyber_threat"%string,
      map str ["hack"; "breach"; "ddos"; "malware"; "ransomware";
               "cyberattack"; "phishing"]%string);
    ("ai_threat"%string,
      [str "deepfake"; str "ai attack"; str "voice clone";
       [97; 105; 35784; 39575]]) ].

Inductive PatternType := urgency | targeted | planning | emotional.

Record Pattern := {
  p_regex : regex;
  p_type : PatternType;
  p_score : Z
}.

(** Shorthands for writing the patterns: [l "abc"] a literal, [r1 ;; r2]
    a sequence, [dots] the greedy [.*]. *)
Local Open Scope string_scope.

Definition l (s : string) : regex := lit (str s).
Definition dots : regex := Star Dot.
Definition oneOf (ss : list string) : regex := alts (map l ss).

Definition PATTERNS : list Pattern :=
  [ (* /right now|tonight|today.*going/i *)
    {| p_regex := alts [l "right now"; l "tonight";
                        cats [l "today"; dots; l "going"]];
       p_type := urgency; p_score := 15 |};
    (* /this weekend|tomorrow.*will/i *)
    {| p_regex := alts [l "this weekend"; cats [l "tomorrow"; dots; l "will"]];
       p_type := urgency; p_score := 10 |};
    (* /at (\d+)\s*(am|pm)/i *)
    {| p_regex := cats [l "at "; Plus Digit; Star Space; oneOf ["am"; "pm"]];
       p_type := urgency; p_score := 15 |};
    (* /in (\d+)\s*hours?/i *)
    {| p_regex := cats [l "in "; Plus Digit; Star Space; l "hour"; Opt (l "s")];
       p_type := urgency; p_score := 15 |};
    (* /counting down|final.*warning|time.*running/i *)
    {| p_regex := alts [l "counting down"; cats [l "final"; dots; l "warning"];
                        cats [l "time"; dots; l "running"]];
       p_type := urgency; p_score := 20 |};
    (* /my (boss|colleague|teacher|neighbor|ex)/i *)
    {| p_regex := cats [l "my "; oneOf ["boss"; "colleague"; "teacher";
                                        "neighbor"; "ex"]];
       p_type := targeted; p_score := 20 |};
    (* /they.*deserve|will make them pay/i *)
    {| p_regex := alts [cats [l "they"; dots; l "deserve"];
                        l "will make them pay"];
       p_type := targeted; p_score := 25 |};
    (* /at (school|work|home)/i *)
    {| p_regex := cats [l "at "; oneOf ["school"; "work"; "home"]];
       p_type := targeted; p_score := 20 |};
    (* /going to buy|just ordered|already have/i *)
    {| p_regex := oneOf ["going to buy"; "just ordered"; "already have"];
       p_type := planning; p_score := 25 |};
    (* /drive.*(truck|car).*into|crowd.*people/i *)
    {| p_regex := alts [cats [l "drive"; dots; oneOf ["truck"; "car"]; dots;
                              l "into"];
                        cats [l "crowd"; dots; l "people"]];
       p_type := planning; p_score := 35 |};
    (* /picked (up|bought|got)/i *)
    {| p_regex := cats [l "picked "; oneOf ["up"; "bought"; "got"]];
       p_type := planning; p_score := 20 |};
    (* /know.*where.*(live|work)/i *)
    {| p_regex := cats [l "know"; dots; l "where"; dots;
                        oneOf ["live"; "work"]];
       p_type := planning; p_score := 25 |};
    (* /no.*reason.*live|nothing.*matter/i *)
    {| p_regex := alts [cats [l "no"; dots; l "reason"; dots; l "live"];
                        cats [l "nothing"; dots; l "matter"]];
       p_type := emotional; p_score := 25 |};
    (* /nobody.*(care|understand)/i *)
    {| p_regex := cats [l "nobody"; dots; oneOf ["care"; "understand"]];
       p_type := emotional; p_score := 20 |};
    (* /better.*without.*me/i *)
    {| p_regex := cats [l "better"; dots; l "without"; dots; l "me"];
       p_type := emotional; p_score := 40 |};
    (* /(老师|同学|同事|老板).*(该|活该|死)/i *)
    {| p_regex := cats [alts [lit [32769; 24072]; lit [21516; 23398];
                              lit [21516; 20107]; lit [32769; 26495]];
                        dots;
                        alts [lit [35813]; lit [27963; 35813]; lit [27515]]];
       p_type := targeted; p_score := 30 |};
    (* /(准备|计划|打算).*(杀|砍|弄)/i *)
    {| p_regex := cats [alts [lit [20934; 22791]; lit [35745; 21010];
                              lit [25171; 31639]];
                        dots;
                        alts [lit [26432]; lit [30733]; lit [24324]]];
       p_type := planning; p_score := 35 |};
    (* /final.*(goodbye|message|note)/i *)
    {| p_regex := cats [l "final"; dots; oneOf ["goodbye"; "message"; "note"]];
       p_type := emotional; p_score := 50 |};
    (* /nobody.*(miss|remember|care)/i *)
    {| p_regex := cats [l "nobody"; dots; oneOf ["miss"; "remember"; "care"]];
       p_type := emotional; p_score := 30 |};
    (* /always.*(tired|exhausted|depressed)/i *)
    {| p_regex := cats [l "always"; dots;
                        oneOf ["tired"; "exhausted"; "depressed"]];
       p_type := emotional; p_score := 25 |};
    (* /(3d|ghost).*(print|gun)/i *)
    {| p_regex := cats [oneOf ["3d"; "ghost"]; dots; oneOf ["print"; "gun"]];
       p_type := planning; p_score := 30 |};
    (* /synthetic.*(virus|biology)/i *)
    {| p_regex := cats [l "synthetic"; dots; oneOf ["virus"; "biology"]];
       p_type := planning; p_score := 40 |} ].

Local Close Scope string_scope.

(** ** The text scorer *)

Local Open Scope string_scope.
Local Open Scope list_scope.
Local Open Scope Z_scope.

Inductive Language := zh | en.

Inductive Level := low | medium | high | critical.

Record FoundThreat := {
  keyword : JSString;
  score : Z;
  category : string;
  language : Language
}.

Record DetectedPattern := {
  type : PatternType;
  matched : JSString
}.

Record AnalysisResult := {
  text_preview : JSString;
  threat_score : Z;
  threat_level : Level;
  found_threats : list FoundThreat;
  detected_patterns : list DetectedPattern;
  analyzed_at : Z
}.

(** The inner loop over [Object.entries(CATEGORIES)], left at the first
    category whose array holds the keyword. *)
Fixpoint findCategory (cats : list (string * list JSString))
    (keyword : JSString) (category : string) : string :=
  match cats with
  | [] => category
  | (cat, keywords) :: rest =>
      if array_includes keywords keyword then cat
      else findCategory rest keyword category
  end.

(** [keyword.match(/[一-龥]/) ? "zh" : "en"] *)
Definition languageOf (keyword : JSString) : Language :=
  if existsb isChinese keyword then zh else en.

(** One turn of the keyword loop on the pair [(foundThreats, totalScore)]. *)
Definition keywordStep (textLower : JSString)
    (acc : list FoundThreat * Z) (entry : JSString * Z)
    : list FoundThreat * Z :=
  let (keyword, score) := entry in
  if includes textLower keyword then
    let category := findCategory CATEGORIES keyword "general_threat" in
    (fst acc ++ [ {| keyword := keyword; score := score;
                     category := category;
                     language := languageOf keyword |} ],
     snd acc + score)
  else acc.

Definition keywordPass (textLower : JSString) : list FoundThreat * Z :=
  fold_left (keywordStep textLower) (Object_entries VIOLENCE_KEYWORDS) ([], 0).

(** One turn of the pattern loop on [(patternScore, detectedPatterns)]. *)
Definition patternStep (text : JSString)
    (acc : Z * list DetectedPattern) (p : Pattern)
    : Z * list DetectedPattern :=
  match regex_match (p_regex p) text with
  | Some m =>
      (fst acc + p_score p,
       snd acc ++ [ {| type := p_type p; matched := m |} ])
  | None => acc
  end.

Definition patternPass (text : JSString) : Z * list DetectedPattern :=
  fold_left (patternStep text) PATTERNS (0, []).

(** The pseudo-match pushed for one ideograph of the text. *)
Definition charThreat (char : Z) : FoundThreat :=
  {| keyword := [char]; score := 80; category := "general_threat";
     language := zh |}.

(** The block guarded by [if (chineseChars)]. *)
Definition chinesePass (text : JSString) (acc : list FoundThreat * Z)
    : list FoundThreat * Z :=
  match matchAllChinese text with
  | Some chineseChars =>
      (fold_left (fun ft char => ft ++ [charThreat char])
                 (slice0 10 chineseChars) (fst acc),
       snd acc + Z.min (len chineseChars * 10) 50)
  | None => acc
  end.

Definition levelOfScore (finalScore : Z) : Level :=
  if finalScore >=? 80 then critical
  else if finalScore >=? 60 then high
  else if finalScore >=? 40 then medium
  else low.

Section Scorer.

(** [String.prototype.toLowerCase], the Unicode lower-casing of the
    engine. *)
Variable toLowerCase : JSString -> JSString.

(** [analyzeText(text)]; [now] is the reading of the clock stamped into
    [analyzed_at]. *)
Definition analyzeText (now : Z) (text : JSString) : AnalysisResult :=
  let textLower := toLowerCase text in
  let kw := keywordPass textLower in
  let pat := patternPass text in
  let patternScore := fst pat in
  let detectedPatterns := snd pat in
  let zhp := chinesePass text (fst kw, snd kw + patternScore) in
  let foundThreats := fst zhp in
  let totalScore := snd zhp in
  let finalScore := Z.min totalScore 100 in
  let level := levelOfScore finalScore in
  {| text_preview :=
       if len text >? 150 then slice0 150 text ++ str "..."
       else text;
     threat_score := finalScore;
     threat_level := level;
     found_threats := slice0 10 foundThreats;
     detected_patterns := detectedPatterns;
     analyzed_at := now |}.

End Scorer.

(** ** The single-submission probability estimator *)

Record Prediction := {
  probability : Z;
  risk_level : string;
  prediction : string
}.

(** [new Date().getHours()] when the clock reads [t] milliseconds and the
    local time zone is [tza] milliseconds ahead of UTC: the hour of the
    local day. *)
Definition getHours (t tza : Z) : Z := ((t + tza) / 3600000) mod 24.

(** [Math.round]: the nearest integer, a tie going up. *)
Definition Math_round (x : Q) : Z := Qfloor (x + (1 # 2)).

(** [calculateProbability(threats)], [hour] being the value read from the
    clock.  The product by 1.3 is taken in [Q]; the double the engine
    computes for [n * 20 * 1.3] is the integer [26 * n] for every array
    length [n], so that rounding and the comparisons with 60, 80 and 100
    agree with the exact ones. *)
Definition calculateProbability {A} (hour : Z) (threats : list A)
    : Prediction :=
  if len threats =? 0 then
    {| probability := 0; risk_level := "minimal";
       prediction := "No threat signals" |}
  else
    let baseProb : Q := inject_Z (len threats * 20) in
    let baseProb :=
      if (hour <? 6) || (hour >? 23) then (baseProb * (13 # 10))%Q
      else baseProb in
    let finalProb := Qmin baseProb (inject_Z 100) in
    {| probability := Math_round finalProb;
       risk_level :=
         if Qle_bool (inject_Z 80) finalProb then "extreme"
         else if Qle_bool (inject_Z 60) finalProb then "high"
         else "moderate";
       prediction :=
         if Qle_bool (inject_Z 60) finalProb then "HIGH CRIME PROBABILITY"
         else "Low risk" |}.

(** ** Identifiers

    [Math.random().toString(36)] prints a number of [0, 1) in base 36: the
    string ["0"] for zero, else ["0."] and the digits of the fraction.  A draw
    is given by these digits, each in [0, 36). *)

Definition Draw := list Z.

Definition digit36 (d : Z) : Z := if d <? 10 then 48 + d else 87 + d.

Definition toString36 (ds : Draw) : JSString :=
  match ds with
  | [] => str "0"
  | _ => str "0." ++ map digit36 ds
  end.

(** The base-36 digits of the fraction [num / den], for [0 <= num < den];
    the expansion ends when [den] divides a power of 36, which is the case
    of every double.  The engine prints it whole when it is short (it stops
    once the digits single out the double, about eleven digits in). *)
Fixpoint fractionDigits36 (fuel : nat) (num den : Z) : Draw :=
  match fuel with
  | O => []
  | S fuel' =>
      if num =? 0 then []
      else (36 * num / den) :: fractionDigits36 fuel' (36 * num mod den) den
  end.

(** [Math.random().toString(36).substr(2, 8)] *)
Definition randomId (ds : Draw) : JSString := substr 2 8 (toString36 ds).

(** ["N-" + Math.random().toString(36).substr(2, 8).toUpperCase()] *)
Definition newNumber (ds : Draw) : JSString :=
  str "N-" ++ toUpperCaseAscii (randomId ds).

(** ** The threat log, the cache and the rate limiter *)

(** An entry of [found_threats] in the demo records (no [language]). *)
Record DemoFound := {
  demo_keyword : JSString;
  demo_score : Z;
  demo_category : string
}.

(** The [analysis] of a log record: the three-field object of a demo record
    or the result of [analyzeText]. *)
Inductive LoggedAnalysis :=
| DemoAnalysis (level : Level) (sc : Z) (found : list DemoFound)
| FullAnalysis (a : AnalysisResult).

(** [t.analysis?.threat_level] *)
Definition levelOf (a : LoggedAnalysis) : Level :=
  match a with
  | DemoAnalysis level _ _ => level
  | FullAnalysis a => threat_level a
  end.

Record ThreatRecord := {
  number : JSString;
  source : string;
  text : JSString;
  analysis : LoggedAnalysis;
  detected_at : Z
}.

Definition demoThreats (d1 d2 : Draw) (t1 t2 : Z) : list ThreatRecord :=
  [ {| number := newNumber d1;
       source := "twitter";
       text := str "I'm going to kill my boss tomorrow";
       analysis := DemoAnalysis critical 95
         [ {| demo_keyword := str "kill"; demo_score := 95;
              demo_category := "physical_violence" |} ];
       detected_at := t1 |};
    {| number := newNumber d2;
       source := "reddit";
       text := str "This school deserves what happens this weekend";
       analysis := DemoAnalysis high 75
         [ {| demo_keyword := str "deserves"; demo_score := 75;
              demo_category := "terrorism" |} ];
       detected_at := t2 |} ].

Definition Level_eqb (a b : Level) : bool :=
  match a, b with
  | low, low | medium, medium | high, high | critical, critical => true
  | _, _ => false
  end.

(** [["critical", "high"].includes(level)] *)
Definition isRisk (level : Level) : bool :=
  Level_eqb level critical || Level_eqb level high.

Record StatsData := {
  total_threats : Z;
  by_level : Level -> Z
}.

Record ThreatsData := {
  threats : list ThreatRecord;
  total : Z
}.

Record PredData := {
  citywide_risk : string;
  predicted_crimes : Z;
  hotspots : list string;
  confidence : string
}.

Record Cache := {
  stats : option (StatsData * Z);
  pred : option (PredData * Z);
  cached_threats : option (ThreatsData * Z)
}.

Definition CACHE_TTL : Z := 5000.
Definition RATE_LIMIT_WINDOW : Z := 60000.
Definition RATE_LIMIT_MAX : Z := 30.

(** The module state: [threatLog], [cache] and the map [requestCounts]
    (client to the array of its request times, in insertion order). *)
Record State := {
  threatLog : list ThreatRecord;
  cache : Cache;
  requestCounts : list (string * list Z)
}.

Definition initialState (d1 d2 : Draw) (t1 t2 : Z) : State :=
  {| threatLog := demoThreats d1 d2 t1 t2;
     cache := {| stats := None; pred := None; cached_threats := None |};
     requestCounts := [] |}.

(** [timestamp < windowStart] where [timestamp] is the array stored in the
    map: the array is converted to a number through its string, which gives
    0 for the empty array, the element for a one-element array and NaN (the
    comparison is then false) for a longer one. *)
Definition arrayLessThan (timestamp : list Z) (windowStart : Z) : bool :=
  match timestamp with
  | [] => 0 <? windowStart
  | [t] => t <? windowStart
  | _ => false
  end.

Fixpoint map_get (m : list (string * list Z)) (ip : string)
    : option (list Z) :=
  match m with
  | [] => None
  | (k', v) :: m' => if String.eqb k' ip then Some v else map_get m' ip
  end.

Fixpoint map_set (m : list (string * list Z)) (ip : string) (v : list Z)
    : list (string * list Z) :=
  match m with
  | [] => [(ip, v)]
  | (k', v') :: m' =>
      if String.eqb k' ip then (k', v) :: m'
      else (k', v') :: map_set m' ip v
  end.

(** [checkRateLimit(ip)] with [now] the reading of [Date.now()]. *)
Definition checkRateLimit (now : Z) (ip : string)
    (requestCounts : list (string * list Z))
    : bool * list (string * list Z) :=
  let windowStart := now - RATE_LIMIT_WINDOW in
  let requestCounts :=
    filter (fun kv => negb (arrayLessThan (snd kv) windowStart))
           requestCounts in
  let old := match map_get requestCounts ip with
             | Some ts => ts
             | None => []
             end in
  let count := len (filter (fun t => t >? windowStart) old) in
  if count >=? RATE_LIMIT_MAX then (false, requestCounts)
  else (true, map_set requestCounts ip (old ++ [now])).

(** [/statistics]: the loop that fills [byLevel]. *)
Definition countLevel (byLevel : Level -> Z) (t : ThreatRecord) : Level -> Z :=
  let level := levelOf (analysis t) in
  fun l => if Level_eqb l level then byLevel l + 1 else byLevel l.

Definition summarize (log : list ThreatRecord) : StatsData :=
  {| total_threats := len log;
     by_level := fold_left countLevel log (fun _ => 0) |}.

(** [/prediction]: the summary computed from the log. *)
Definition predict (log : list ThreatRecord) : PredData :=
  let riskCount :=
    len (filter (fun t => isRisk (levelOf (analysis t))) log) in
  {| citywide_risk := if riskCount >? 0 then "elevated" else "low";
     predicted_crimes := riskCount * 3;
     hotspots := if riskCount >? 0 then ["downtown"; "transit hub"] else [];
     confidence := if riskCount >? 2 then "high" else "medium" |}.

(** ** The request handler *)

(** The values [JSON.parse] can give to [text]. *)
Inductive JSValue :=
| VUndefined
| VNull
| VBoolean (b : bool)
| VNumber
| VString (s : JSString)
| VObject.

(** A request as [handler] reads it: [req.url], [req.method] and the client
    address resolved from the headers or the connection. *)
Record Request := {
  url : string;
  method : string;
  clientIp : string
}.

(** What the environment answers during one event, one field per place
    where the module asks: the clock ([Date.now()], [new Date()]), the
    local time zone and [Math.random()]. *)
Record Env := {
  t_rate : Z;       (* Date.now() in checkRateLimit *)
  t_check : Z;      (* Date.now() in the freshness test of a cached route *)
  t_store : Z;      (* Date.now() when a cache entry is stored *)
  t_analyzed : Z;   (* new Date() in analyzeText *)
  t_detected : Z;   (* new Date() in the pushed record *)
  t_hour : Z;       (* new Date() in calculateProbability *)
  tza : Z;
  d_log : Draw;     (* Math.random() for the number of the pushed record *)
  d_id : Draw;      (* Math.random() for the id of the response *)
  d_number : Draw   (* Math.random() for the number of the response *)
}.

Inductive Response :=
| TooManyRequests                     (* 429 *)
| EmptyOk                             (* 200, reply to OPTIONS *)
| Banner
| Healthy
| Pending                             (* no reply yet: the body is awaited *)
| BadRequest (error : string)         (* 400 *)
| ServerError                         (* 500 *)
| Analyzed (id number : JSString) (analysis : AnalysisResult)
           (prediction : Prediction)
| Statistics (data : StatsData)
| Threats (data : ThreatsData)
| PredictionSummary (data : PredData)
| NotFound.                           (* 404 *)

Definition fresh {A} (entry : option (A * Z)) (now : Z) : option A :=
  match entry with
  | Some (data, ts) => if now - ts <? CACHE_TTL then Some data else None
  | None => None
  end.

Definition withLog (st : State) (log : list ThreatRecord) : State :=
  {| threatLog := log; cache := cache st;
     requestCounts := requestCounts st |}.

Definition withCache (st : State) (c : Cache) : State :=
  {| threatLog := threatLog st; cache := c;
     requestCounts := requestCounts st |}.

Definition withCounts (st : State) (rc : list (string * list Z)) : State :=
  {| threatLog := threatLog st; cache := cache st; requestCounts := rc |}.

(** The routes that follow the rate limiter. *)
Definition route (req : Request) (env : Env) (st : State)
    : State * Response :=
  let path := url req in
  if String.eqb (method req) "OPTIONS" then (st, EmptyOk)
  else if String.eqb path "/" || String.eqb path "" then (st, Banner)
  else if String.eqb path "/health" then (st, Healthy)
  else if String.eqb path "/analyze" && String.eqb (method req) "POST" then
    (st, Pending)
  else if String.eqb path "/statistics" then
    match fresh (stats (cache st)) (t_check env) with
    | Some data => (st, Statistics data)
    | None =>
        let data := summarize (threatLog st) in
        (withCache st {| stats := Some (data, t_store env);
                         pred := pred (cache st);
                         cached_threats := cached_threats (cache st) |},
         Statistics data)
    end
  else if String.eqb path "/threats" then
    match fresh (cached_threats (cache st)) (t_check env) with
    | Some data => (st, Threats data)
    | None =>
        let data := {| threats := slice_last 20 (threatLog st);
                       total := len (threatLog st) |} in
        (withCache st {| stats := stats (cache st);
                         pred := pred (cache st);
                         cached_threats := Some (data, t_store env) |},
         Threats data)
    end
  else if String.eqb path "/prediction" then
    match fresh (pred (cache st)) (t_check env) with
    | Some data => (st, PredictionSummary data)
    | None =>
        let data := predict (threatLog st) in
        (withCache st {| stats := stats (cache st);
                         pred := Some (data, t_store env);
                         cached_threats := cached_threats (cache st) |},
         PredictionSummary data)
    end
  else (st, NotFound).

(** [handler(req, res)]: what it does before it returns. *)
Definition handler (req : Request) (env : Env) (st : State)
    : State * Response :=
  if String.eqb (url req) "/analyze" then
    let (allowed, rc) :=
      checkRateLimit (t_rate env) (clientIp req) (requestCounts st) in
    if allowed then route req env (withCounts st rc)
    else (withCounts st rc, TooManyRequests)
  else route req env st.

Section Server.

Variable toLowerCase : JSString -> JSString.

(** [analyzeText] applied to a value: a property read on [undefined] or
    [null], or a call of a method the value lacks, throws a [TypeError]. *)
Definition analyzeTextValue (now : Z) (v : JSValue) : option AnalysisResult :=
  match v with
  | VString text => Some (analyzeText toLowerCase now text)
  | _ => None
  end.

(** The callback of the [end] event of an analyze request.  [body] is
    [None] when [JSON.parse] or the destructuring of its result throws,
    else the value bound to [text]. *)
Definition onEnd (body : option JSValue) (env : Env) (st : State)
    : State * Response :=
  match body with
  | None => (st, ServerError)
  | Some (VString text) =>
      if (len text =? 0) || (len (trim text) =? 0) then
        (st, BadRequest "Text input required")
      else if len text >? 10000 then
        (st, BadRequest "Text too long (max 10000 chars)")
      else
        let sanitizedText := slice0 5000 (trim text) in
        let analysis := analyzeText toLowerCase (t_analyzed env) sanitizedText in
        let risky := isRisk (threat_level analysis) in
        let st' :=
          if risky then
            withLog st (threatLog st ++
              [ {| number := newNumber (d_log env);
                   source := "api";
                   text := text;
                   analysis := FullAnalysis analysis;
                   detected_at := t_detected env |} ])
          else st in
        let prediction :=
          calculateProbability (getHours (t_hour env) (tza env))
            (if risky then [analysis] else []) in
        (st', Analyzed (randomId (d_id env)) (newNumber (d_number env))
                       analysis prediction)
  | Some _ => (st, BadRequest "Text input required")
  end.

(** The two kinds of event of the server: a call of [handler], and the end
    of the body of an analyze request accepted earlier. *)
Inductive Event :=
| Call (req : Request) (env : Env)
| BodyEnd (body : option JSValue) (env : Env).

Definition step (ev : Event) (st : State) : State * Response :=
  match ev with
  | Call req env => handler req env st
  | BodyEnd body env => onEnd body env st
  end.

(** The states of a run: the module is loaded (the demo records draw two
    numbers and two dates), then events follow one another. *)
Inductive reachable : State -> Prop :=
| reach_init : forall d1 d2 t1 t2, reachable (initialState d1 d2 t1 t2)
| reach_step : forall st ev, reachable st -> reachable (fst (step ev st)).

End Server.

(** * Notions of the description and sample inputs *)

(** ** The scorer in the words of its description

    The description of the scorer speaks of the keywords that occur in the
    text, of the rules that match it and of its ideographs.  These notions
    are defined here on their own, and the loops of [analyzeText] are shown
    to compute them. *)

Definition sumZ (xs : list Z) : Z := fold_right Z.add 0 xs.

(** The entries of the lexicon whose keyword occurs in [textLower], in the
    order of [Object.entries]. *)
Definition keywordMatches (textLower : JSString) : list (JSString * Z) :=
  filter (fun e => includes textLower (fst e)) (Object_entries VIOLENCE_KEYWORDS).

Definition threatOfEntry (e : JSString * Z) : FoundThreat :=
  {| keyword := fst e; score := snd e;
     category := findCategory CATEGORIES (fst e) "general_threat";
     language := languageOf (fst e) |}.

Definition keywordScore (textLower : JSString) : Z :=
  sumZ (map snd (keywordMatches textLower)).

Definition matchesText (text : JSString) (p : Pattern) : bool :=
  match regex_match (p_regex p) text with
  | Some _ => true
  | None => false
  end.

Definition patternMatches (text : JSString) : list Pattern :=
  filter (matchesText text) PATTERNS.

Definition patternScore (text : JSString) : Z :=
  sumZ (map p_score (patternMatches text)).

(** The number of code units of the text in the class of the module. *)
Definition countChinese (text : JSString) : Z := len (filter isChinese text).

Definition scriptBonus (text : JSString) : Z :=
  Z.min (countChinese text * 10) 50.

(** The per-character pseudo-matches, one for each ideograph of the text. *)
Definition scriptMatches (text : JSString) : list FoundThreat :=
  map charThreat (filter isChinese text).

(** No keyword of the lexicon occurs in the text. *)
Definition noKeyword (textLower : JSString) : bool :=
  forallb (fun e => negb (includes textLower (fst e)))
          (Object_entries VIOLENCE_KEYWORDS).

(** No rule of the pattern set matches the text. *)
Definition noPattern (text : JSString) : bool :=
  forallb (fun p => negb (matchesText text p)) PATTERNS.

(** An [AnalysisResult] as the data model describes it. *)
Definition wellFormed (r : AnalysisResult) : Prop :=
  0 <= threat_score r <= 100 /\
  threat_level r = levelOfScore (threat_score r) /\
  len (found_threats r) <= 10 /\
  len (text_preview r) <= 153 /\
  len (detected_patterns r) <= len PATTERNS.

(** Ten ideographs, none of them in a keyword or a rule. *)
Definition ten_ideographs : JSString := repeat 19968 10.

(** Ten ideographs that hold no keyword, the first two and the last being
    an opening and a closing alternative of the sixteenth rule. *)
Definition teacher_text : JSString :=
  [32769; 24072; 19968; 19968; 19968; 19968; 19968; 19968; 19968; 35813].

(** The number of records of the log whose level is high or critical. *)
Fixpoint riskCount (log : list ThreatRecord) : Z :=
  match log with
  | [] => 0
  | t :: log' =>
      match levelOf (analysis t) with
      | high | critical => 1 + riskCount log'
      | medium | low => riskCount log'
      end
  end.

Definition isUpperAlnum (c : Z) : bool :=
  ((48 <=? c) && (c <=? 57)) || ((65 <=? c) && (c <=? 90)).

(** A draw printed with eleven digits, and the draw of the number 1/2. *)
Definition draw11 : Draw := [10; 11; 12; 1; 2; 3; 4; 5; 6; 7; 8].
Definition draw_half : Draw := fractionDigits36 64 1 2.

(** A log of three records, all critical or high: the demo records and the
    record of an analyzed text. *)
Definition three_risky : list ThreatRecord :=
  demoThreats draw11 draw11 0 0 ++
  [ {| number := newNumber draw11; source := "api"; text := str "murder";
       analysis := FullAnalysis (analyzeText toLowerCaseAscii 0 (str "murder"));
       detected_at := 0 |} ].

Definition env0 : Env :=
  {| t_rate := 0; t_check := 0; t_store := 0; t_analyzed := 0;
     t_detected := 0; t_hour := 0; tza := 0;
     d_log := draw11; d_id := draw11; d_number := draw11 |}.

Definition env_half : Env :=
  {| t_rate := 0; t_check := 0; t_store := 0; t_analyzed := 0;
     t_detected := 0; t_hour := 0; tza := 0;
     d_log := draw_half; d_id := draw11; d_number := draw_half |}.

Definition st0 : State := initialState draw11 draw11 0 0.

(** The letter a followed by 150 spaces. *)
Definition padded_text : JSString := 97 :: repeat 32 150.

Definition previewOf (r : Response) : option JSString :=
  match r with
  | Analyzed _ _ a _ => Some (text_preview a)
  | _ => None
  end.

Definition numberOf (r : Response) : option JSString :=
  match r with
  | Analyzed _ number _ _ => Some number
  | _ => None
  end.

(** The log starts with the two demo records. *)
Definition seeded (st : State) : Prop :=
  exists d1 d2 t1 t2 rest, threatLog st = demoThreats d1 d2 t1 t2 ++ rest.

(** What the cache holds was computed from a seeded log. *)
Definition cacheSound (c : Cache) : Prop :=
  (forall d ts, stats c = Some (d, ts) -> 2 <= total_threats d) /\
  (forall d ts, pred c = Some (d, ts) -> citywide_risk d = "elevated").

Definition invariant (st : State) : Prop :=
  seeded st /\ cacheSound (cache st).

(** What a response reports when the log it was computed from is seeded. *)
Definition seededResponse (r : Response) : Prop :=
  match r with
  | Statistics d => 2 <= total_threats d
  | PredictionSummary d => citywide_risk d = "elevated"
  | _ => True
  end.

Definition statistics_request : Request :=
  {| url := "/statistics"; method := "GET"; clientIp := "unknown" |}.

(** The reading of the clock at half past the hour [h] of the first day. *)
Definition half_past (h : Z) : Z := h * 3600000 + 1800000.

(** An analyze request handled at 23:30, local time. *)
Definition env_2330 : Env :=
  {| t_rate := half_past 23; t_check := half_past 23;
     t_store := half_past 23; t_analyzed := half_past 23;
     t_detected := half_past 23; t_hour := half_past 23; tza := 0;
     d_log := draw11; d_id := draw11; d_number := draw11 |}.

Definition predictionOf (r : Response) : option Prediction :=
  match r with
  | Analyzed _ _ _ p => Some p
  | _ => None
  end.

(** ** Notions for the rate limiter, the log, the cache and the evidence *)

(** The calls of one client to [checkRateLimit] at the given times, one
    after the other: the answers, and the map that is left. *)
Fixpoint checkAll (ip : string) (times : list Z)
    (rc : list (string * list Z)) : list bool * list (string * list Z) :=
  match times with
  | [] => ([], rc)
  | now :: times' =>
      let (ok, rc') := checkRateLimit now ip rc in
      let (oks, rc'') := checkAll ip times' rc' in
      (ok :: oks, rc'')
  end.

(** The map after the cleaning loop of [checkRateLimit]. *)
Definition cleaned (now : Z) (rc : list (string * list Z))
    : list (string * list Z) :=
  filter (fun kv => negb (arrayLessThan (snd kv) (now - RATE_LIMIT_WINDOW))) rc.

(** The number of records of the log with a given level. *)
Definition countOfLevel (level : Level) (log : list ThreatRecord) : Z :=
  len (filter (fun t => Level_eqb (levelOf (analysis t)) level) log).

(** A record as the analyze route logs it. *)
Definition riskRecord (t : ThreatRecord) : Prop :=
  isRisk (levelOf (analysis t)) = true.

(** Statistics of a log that holds critical and high records only. *)
Definition riskOnlyStats (d : StatsData) : Prop :=
  by_level d medium = 0 /\ by_level d low = 0 /\
  by_level d critical + by_level d high = total_threats d /\
  2 <= total_threats d.

(** A prediction computed from a log that holds the demo records. *)
Definition alarmedPrediction (d : PredData) : Prop :=
  6 <= predicted_crimes d /\ (predicted_crimes d) mod 3 = 0 /\
  hotspots d = ["downtown"; "transit hub"].

(** [m] is a piece of [text]: some characters, then [m], then the rest. *)
Definition piece (m text : JSString) : Prop :=
  exists before after, text = before ++ m ++ after.

(** What the pattern loop pushes for one rule. *)
Definition evidenceOf (text : JSString) (p : Pattern) : list DetectedPattern :=
  match regex_match (p_regex p) text with
  | Some m => [ {| type := p_type p; matched := m |} ]
  | None => []
  end.

(** The state of the log and of the cache agree with a run that logs
    critical and high records only. *)
Definition riskOnly (st : State) : Prop :=
  Forall riskRecord (threatLog st) /\
  (forall d ts, stats (cache st) = Some (d, ts) -> riskOnlyStats d) /\
  (forall d ts, pred (cache st) = Some (d, ts) -> alarmedPrediction d).

Definition analyze_request (m : string) (ip : string) : Request :=
  {| url := "/analyze"; method := m; clientIp := ip |}.

(** A run of the server from a state: the events one after the other. *)
Fixpoint run (toLowerCase : JSString -> JSString) (evs : list Event)
    (st : State) : State :=
  match evs with
  | [] => st
  | ev :: evs' => run toLowerCase evs' (fst (step toLowerCase ev st))
  end.

Definition isBodyEnd (ev : Event) : bool :=
  match ev with
  | BodyEnd _ _ => true
  | Call _ _ => false
  end.

(** The bodies the analyze callback accepts: a string that is not blank and
    has at most 10000 characters. *)
Definition accepted (body : option JSValue) : bool :=
  match body with
  | Some (VString input) =>
      negb (len (trim input) =? 0) && (len input <=? 10000)
  | _ => false
  end.

Definition statistics_get : Request :=
  {| url := "/statistics"; method := "GET"; clientIp := "10.0.0.1" |}.

Definition threats_get : Request :=
  {| url := "/threats"; method := "GET"; clientIp := "10.0.0.1" |}.

(** Clock readings one second into the run, and one second later. *)
Definition env_at (t : Z) : Env :=
  {| t_rate := t; t_check := t; t_store := t; t_analyzed := t;
     t_detected := t; t_hour := t; tza := 0;
     d_log := draw11; d_id := draw11; d_number := draw11 |}.

(** What a response reports when the log it was computed from holds the
    demo records and critical and high records only. *)
Definition riskOnlyResponse (r : Response) : Prop :=
  match r with
  | Statistics d => riskOnlyStats d
  | PredictionSummary d => alarmedPrediction d
  | _ => True
  end.

(** The answer of the analyze callback to a body it does not accept. *)
Definition rejection (body : option JSValue) : Response :=
  match body with
  | None => ServerError
  | Some (VString input) =>
      if len (trim input) =? 0 then BadRequest "Text input required"
      else BadRequest "Text too long (max 10000 chars)"
  | Some _ => BadRequest "Text input required"
  end.

(** The state after the text ["kill"] has been analyzed and logged. *)
Definition st_kill : State :=
  fst (onEnd toLowerCaseAscii (Some (VString (str "kill"))) (env_at 2000)
         (fst (handler statistics_get (env_at 1000) st0))).

(** [x] is what is left of [s] after some of its first characters. *)
Definition suffixOf (x s : JSString) : Prop := exists p, s = p ++ x.

(** The evidence of a rule with its matched string in upper case. *)
Definition upperEvidence (d : DetectedPattern) : DetectedPattern :=
  {| type := type d; matched := toUpperCaseAscii (matched d) |}.

(** * Properties *)

(** ** The tables and the matcher on samples *)

Example lexicon_entries :
  len VIOLENCE_KEYWORDS_props = 177 /\
  len (Object_entries VIOLENCE_KEYWORDS) = 174.
Proof. split; vm_compute; reflexivity. Qed.

Example greedy_dots :
  regex_match (cats [l "to"; dots; l "o"])
              (str "I'm going TO kill my boss tomorrow")
  = Some (str "TO kill my boss tomorro").
Proof. vm_compute. reflexivity. Qed.

Example clock_rule :
  regex_match (cats [l "at "; Plus Digit; Star Space; oneOf ["am"; "pm"]])
              (str "meet me AT 12  PM sharp")
  = Some (str "AT 12  PM").
Proof. vm_compute. reflexivity. Qed.

Example dot_stops_at_newline :
  regex_match (cats [l "they"; dots; l "deserve"])
              (str "they" ++ [10] ++ str "deserve") = None.
Proof. vm_compute. reflexivity. Qed.

Example trim_both_ends : trim (str "  a b  ") = str "a b".
Proof. vm_compute. reflexivity. Qed.

(** The sample of the description: two keywords and the rule on [my boss]. *)
Example analyze_boss :
  let r := analyzeText toLowerCaseAscii 0
             (str "I'm going to kill my boss tomorrow") in
  threat_score r = 100 /\ threat_level r = critical /\
  map keyword (found_threats r) = [str "kill"; str "going to kill"] /\
  map category (found_threats r) = ["physical_violence"; "general_threat"] /\
  detected_patterns r = [ {| type := targeted; matched := str "my boss" |} ].
Proof. vm_compute. repeat split. Qed.

(** The class of the module ends at U+9FA5: the ideographs from U+9FA6 on
    earn no bonus. *)
Example late_ideographs_not_counted :
  countChinese (repeat 40870 10) = 0 /\
  threat_score (analyzeText toLowerCaseAscii 0 (repeat 40870 10)) = 0.
Proof. split; vm_compute; reflexivity. Qed.

(** ** The scorer *)

Lemma sumZ_nonneg (xs : list Z) : Forall (fun x => 0 <= x) xs -> 0 <= sumZ xs.
Proof.
  induction 1 as [|x xs Hx _ IH]; simpl; lia.
Qed.

Lemma len_nonneg {A} (xs : list A) : 0 <= len xs.
Proof. unfold len. lia. Qed.

Lemma len_app {A} (xs ys : list A) : len (xs ++ ys) = len xs + len ys.
Proof. unfold len. rewrite length_app. lia. Qed.

Lemma len_slice0 {A} (n : Z) (xs : list A) :
  0 <= n -> len (slice0 n xs) = Z.min n (len xs).
Proof.
  intros Hn. unfold len, slice0. rewrite length_firstn. lia.
Qed.

Lemma slice0_all {A} (n : Z) (xs : list A) : len xs <= n -> slice0 n xs = xs.
Proof.
  intros H. unfold slice0. apply firstn_all2. unfold len in H. lia.
Qed.

Lemma firstn_app_firstn {A} (n : nat) (xs ys : list A) :
  firstn n (xs ++ firstn n ys) = firstn n (xs ++ ys).
Proof.
  rewrite !firstn_app, firstn_firstn.
  f_equal. f_equal. lia.
Qed.

Lemma filter_nil_forallb {A} (f : A -> bool) (xs : list A) :
  forallb (fun x => negb (f x)) xs = true -> filter f xs = [].
Proof.
  induction xs as [|x xs IH]; simpl; [reflexivity|].
  rewrite andb_true_iff, negb_true_iff. intros [Hx Hxs].
  rewrite Hx. auto.
Qed.

(** The keyword loop, from any accumulator. *)
Lemma keyword_loop (textLower : JSString) (es : list (JSString * Z)) :
  forall acc,
    fold_left (keywordStep textLower) es acc =
    (fst acc ++ map threatOfEntry
                  (filter (fun e => includes textLower (fst e)) es),
     snd acc + sumZ (map snd
                  (filter (fun e => includes textLower (fst e)) es))).
Proof.
  induction es as [|[kw sc] es IH]; intros [ft tot]; simpl.
  - rewrite app_nil_r, Z.add_0_r. reflexivity.
  - destruct (includes textLower kw) eqn:Hin; rewrite IH; simpl.
    + rewrite <- app_assoc. simpl. f_equal. lia.
    + reflexivity.
Qed.

Lemma keywordPass_spec (textLower : JSString) :
  keywordPass textLower =
  (map threatOfEntry (keywordMatches textLower), keywordScore textLower).
Proof.
  unfold keywordPass, keywordScore, keywordMatches.
  rewrite keyword_loop. cbn [fst snd app]. rewrite Z.add_0_l. reflexivity.
Qed.

(** The pattern loop, from any accumulator. *)
Lemma pattern_loop (text : JSString) (ps : list Pattern) :
  forall acc,
    fst (fold_left (patternStep text) ps acc) =
    fst acc + sumZ (map p_score (filter (matchesText text) ps)).
Proof.
  induction ps as [|p ps IH]; intros [tot dp]; simpl.
  - lia.
  - unfold patternStep at 2, matchesText at 1.
    destruct (regex_match (p_regex p) text); rewrite IH; simpl; lia.
Qed.

Lemma patternPass_score (text : JSString) :
  fst (patternPass text) = patternScore text.
Proof.
  unfold patternPass, patternScore, patternMatches.
  rewrite pattern_loop. cbn [fst]. rewrite Z.add_0_l. reflexivity.
Qed.

Lemma pattern_loop_len (text : JSString) (ps : list Pattern) :
  forall acc,
    len (snd (fold_left (patternStep text) ps acc)) <= len (snd acc) + len ps.
Proof.
  induction ps as [|p ps IH]; intros [tot dp]; simpl.
  - unfold len; simpl; lia.
  - unfold patternStep at 2.
    destruct (regex_match (p_regex p) text).
    + etransitivity; [apply IH|]. simpl. rewrite len_app.
      unfold len; simpl; lia.
    + etransitivity; [apply IH|]. unfold len; simpl; lia.
Qed.

Lemma push_loop (cs : list Z) :
  forall ft,
    fold_left (fun ft char => ft ++ [charThreat char]) cs ft =
    ft ++ map charThreat cs.
Proof.
  induction cs as [|c cs IH]; intros ft; simpl.
  - now rewrite app_nil_r.
  - rewrite IH, <- app_assoc. reflexivity.
Qed.

Lemma chinesePass_spec (text : JSString) (acc : list FoundThreat * Z) :
  chinesePass text acc =
  (fst acc ++ map charThreat (slice0 10 (filter isChinese text)),
   snd acc + scriptBonus text).
Proof.
  unfold chinesePass, matchAllChinese, scriptBonus, countChinese.
  destruct (filter isChinese text) as [|c cs] eqn:E.
  - destruct acc as [ft tot]. simpl. rewrite app_nil_r.
    f_equal. unfold len. simpl. lia.
  - rewrite push_loop. reflexivity.
Qed.

Lemma lexicon_weights :
  Forall (fun e : JSString * Z => 0 <= snd e <= 100)
         (Object_entries VIOLENCE_KEYWORDS).
Proof.
  apply Forall_forall. intros e He.
  assert (H : forallb (fun e : JSString * Z => (0 <=? snd e) && (snd e <=? 100))
                (Object_entries VIOLENCE_KEYWORDS) = true) by (vm_compute; reflexivity).
  rewrite forallb_forall in H. specialize (H e He).
  apply andb_true_iff in H. lia.
Qed.

Lemma pattern_scores : Forall (fun p => 0 <= p_score p) PATTERNS.
Proof.
  apply Forall_forall. intros p Hp.
  assert (H : forallb (fun p => 0 <=? p_score p) PATTERNS = true)
    by (vm_compute; reflexivity).
  rewrite forallb_forall in H. specialize (H p Hp). lia.
Qed.

Lemma Forall_filter {A} (P : A -> Prop) (f : A -> bool) (xs : list A) :
  Forall P xs -> Forall P (filter f xs).
Proof.
  rewrite !Forall_forall. intros H x Hx.
  apply filter_In in Hx. apply H, Hx.
Qed.

Lemma keywordScore_nonneg (textLower : JSString) : 0 <= keywordScore textLower.
Proof.
  apply sumZ_nonneg, Forall_map, Forall_filter.
  eapply Forall_impl; [|apply lexicon_weights]. simpl. intros; lia.
Qed.

Lemma patternScore_nonneg (text : JSString) : 0 <= patternScore text.
Proof.
  apply sumZ_nonneg, Forall_map, Forall_filter, pattern_scores.
Qed.

Lemma scriptBonus_bounds (text : JSString) : 0 <= scriptBonus text <= 50.
Proof.
  unfold scriptBonus, countChinese. pose proof (len_nonneg (filter isChinese text)). lia.
Qed.

Lemma levelOfScore_cases (s : Z) :
  (80 <= s -> levelOfScore s = critical) /\
  (60 <= s < 80 -> levelOfScore s = high) /\
  (40 <= s < 60 -> levelOfScore s = medium) /\
  (s < 40 -> levelOfScore s = low).
Proof.
  unfold levelOfScore.
  destruct (Z.geb_spec s 80), (Z.geb_spec s 60), (Z.geb_spec s 40);
    repeat split; intros; try reflexivity; lia.
Qed.

Section ScorerProperties.

Variable toLowerCase : JSString -> JSString.

Lemma analyzeText_score (now : Z) (text : JSString) :
  threat_score (analyzeText toLowerCase now text) =
  Z.min (keywordScore (toLowerCase text) + patternScore text
         + scriptBonus text) 100.
Proof.
  unfold analyzeText. cbv zeta. cbn [threat_score].
  rewrite chinesePass_spec, keywordPass_spec, patternPass_score.
  reflexivity.
Qed.

Lemma analyzeText_level (now : Z) (text : JSString) :
  threat_level (analyzeText toLowerCase now text) =
  levelOfScore (threat_score (analyzeText toLowerCase now text)).
Proof. reflexivity. Qed.

Lemma analyzeText_found (now : Z) (text : JSString) :
  found_threats (analyzeText toLowerCase now text) =
  slice0 10 (map threatOfEntry (keywordMatches (toLowerCase text))
             ++ map charThreat (slice0 10 (filter isChinese text))).
Proof.
  unfold analyzeText. cbv zeta. cbn [found_threats].
  rewrite chinesePass_spec, keywordPass_spec. reflexivity.
Qed.

Lemma analyzeText_score_bounds (now : Z) (text : JSString) :
  0 <= threat_score (analyzeText toLowerCase now text) <= 100.
Proof.
  rewrite analyzeText_score.
  pose proof (keywordScore_nonneg (toLowerCase text)).
  pose proof (patternScore_nonneg text).
  pose proof (scriptBonus_bounds text).
  lia.
Qed.

Lemma analyzeText_wellFormed (now : Z) (text : JSString) :
  wellFormed (analyzeText toLowerCase now text).
Proof.
  unfold wellFormed. split; [apply analyzeText_score_bounds|].
  split; [apply analyzeText_level|].
  split; [rewrite analyzeText_found, len_slice0; lia|].
  split.
  - unfold analyzeText. cbv zeta. cbn [text_preview].
    destruct (Z.gtb_spec (len text) 150).
    + rewrite len_app, len_slice0 by lia. unfold len at 2. simpl. lia.
    + lia.
  - unfold analyzeText. cbv zeta. cbn [detected_patterns].
    unfold patternPass. etransitivity; [apply pattern_loop_len|].
    unfold len; simpl; lia.
Qed.

(** C1. For every string, the [threat_score] of the analysis is an integer
    between 0 and 100, and the [threat_level] follows from it by the fixed
    thresholds: critical from 80, high from 60, medium from 40, low below. *)
Theorem threat_score_range_and_level (now : Z) (text : JSString) :
  let r := analyzeText toLowerCase now text in
  0 <= threat_score r <= 100 /\
  threat_level r =
    (if 80 <=? threat_score r then critical
     else if 60 <=? threat_score r then high
     else if 40 <=? threat_score r then medium
     else low).
Proof.
  intros r. split; [apply analyzeText_score_bounds|].
  subst r. rewrite analyzeText_level. unfold levelOfScore.
  rewrite !Z.geb_leb. reflexivity.
Qed.

(** C2, amended. The scorer adds [min(count * 10, 50)] to the running total,
    [count] being the number of code units of the text between U+4E00 and
    U+9FA5; and a text with exactly 10 of them in which no keyword of the
    lexicon occurs and which no rule of the pattern set matches has
    [threat_score] 50 and [threat_level] medium. *)
Theorem script_bonus_score (now : Z) (text : JSString) :
  let r := analyzeText toLowerCase now text in
  threat_score r =
    Z.min (keywordScore (toLowerCase text) + patternScore text
           + Z.min (countChinese text * 10) 50) 100 /\
  (countChinese text = 10 ->
   noKeyword (toLowerCase text) = true ->
   noPattern text = true ->
   threat_score r = 50 /\ threat_level r = medium).
Proof.
  intros r. subst r. split; [apply analyzeText_score|].
  intros Hc Hk Hp.
  assert (Hs : threat_score (analyzeText toLowerCase now text) = 50).
  { rewrite analyzeText_score.
    unfold keywordScore, keywordMatches, patternScore, patternMatches,
      scriptBonus.
    rewrite (filter_nil_forallb _ _ Hk), (filter_nil_forallb _ _ Hp), Hc.
    reflexivity. }
  split; [exact Hs|].
  rewrite analyzeText_level, Hs. reflexivity.
Qed.

(** C7. Whatever the text, [found_threats] has at most 10 entries, and they
    are the first 10 of the matches in the order of discovery: the keywords
    of the lexicon that occur in the text, in the order of iteration of the
    lexicon, then the per-character pseudo-matches of the script bonus. *)
Theorem found_threats_first_ten (now : Z) (text : JSString) :
  let r := analyzeText toLowerCase now text in
  len (found_threats r) <= 10 /\
  found_threats r =
    slice0 10 (map threatOfEntry (keywordMatches (toLowerCase text))
               ++ scriptMatches text).
Proof.
  intros r. subst r. rewrite analyzeText_found. split.
  - rewrite len_slice0; lia.
  - unfold slice0, scriptMatches.
    rewrite <- !firstn_map. apply firstn_app_firstn.
Qed.

(** C8. The scorer throws for no string and its result is well formed; the
    empty string has score 0, level low and no evidence. *)
Theorem analyzeText_never_fails (now : Z) :
  (forall text : JSString,
     exists r, analyzeTextValue toLowerCase now (VString text) = Some r /\
               wellFormed r) /\
  (toLowerCase [] = [] ->
   analyzeText toLowerCase now [] =
     {| text_preview := []; threat_score := 0; threat_level := low;
        found_threats := []; detected_patterns := []; analyzed_at := now |}).
Proof.
  split.
  - intros text. eexists. split; [reflexivity|].
    apply analyzeText_wellFormed.
  - intros Hnil. unfold analyzeText. rewrite Hnil.
    replace (keywordPass []) with (@nil FoundThreat, 0)
      by (vm_compute; reflexivity).
    replace (patternPass []) with (0, @nil DetectedPattern)
      by (vm_compute; reflexivity).
    reflexivity.
Qed.

End ScorerProperties.

(** The case of C2 that holds, on ten ideographs. *)
Lemma script_bonus_score_witness :
  countChinese ten_ideographs = 10 /\
  noKeyword (toLowerCaseAscii ten_ideographs) = true /\
  noPattern ten_ideographs = true /\
  threat_score (analyzeText toLowerCaseAscii 0 ten_ideographs) = 50 /\
  threat_level (analyzeText toLowerCaseAscii 0 ten_ideographs) = medium.
Proof.
  split; [reflexivity|]. split; [vm_compute; reflexivity|].
  split; [vm_compute; reflexivity|].
  apply (proj2 (script_bonus_score toLowerCaseAscii 0 ten_ideographs));
    vm_compute; reflexivity.
Defined.

(** C2 as stated fails: ten ideographs, no keyword of the lexicon, and yet a
    score of 80 and the level critical, the sixteenth rule adding 30. *)
Lemma script_bonus_counterexample :
  countChinese teacher_text = 10 /\
  noKeyword (toLowerCaseAscii teacher_text) = true /\
  toLowerCaseAscii teacher_text = teacher_text /\
  threat_score (analyzeText toLowerCaseAscii 0 teacher_text) = 80 /\
  threat_score (analyzeText toLowerCaseAscii 0 teacher_text) <> 50 /\
  threat_level (analyzeText toLowerCaseAscii 0 teacher_text) = critical /\
  threat_level (analyzeText toLowerCaseAscii 0 teacher_text) <> medium.
Proof.
  repeat split; try (vm_compute; reflexivity); vm_compute; discriminate.
Qed.

Lemma analyzeText_never_fails_witness :
  toLowerCaseAscii [] = [] /\
  analyzeText toLowerCaseAscii 0 [] =
    {| text_preview := []; threat_score := 0; threat_level := low;
       found_threats := []; detected_patterns := []; analyzed_at := 0 |}.
Proof.
  split; [reflexivity|].
  apply (proj2 (analyzeText_never_fails toLowerCaseAscii 0) eq_refl).
Defined.

(** ** The probability estimator *)

Lemma Math_round_inject_Z (z : Z) : Math_round (inject_Z z) = z.
Proof.
  unfold Math_round, Qfloor, Qplus, inject_Z. simpl.
  symmetry. apply (Z.div_unique _ _ _ 1); lia.
Qed.

Lemma Math_round_comp (x y : Q) : x == y -> Math_round x = Math_round y.
Proof.
  intros E. unfold Math_round. now rewrite E.
Qed.

Lemma Qmin_inject_Z (a b : Z) :
  Qmin (inject_Z a) (inject_Z b) == inject_Z (Z.min a b).
Proof.
  destruct (Z.le_gt_cases a b) as [H|H].
  - rewrite Z.min_l by lia. apply Q.min_l. now rewrite <- Zle_Qle.
  - rewrite Z.min_r by lia. apply Q.min_r. rewrite <- Zle_Qle. lia.
Qed.

Lemma Qle_bool_inject_Z (a b : Z) :
  Qle_bool (inject_Z a) (inject_Z b) = (a <=? b).
Proof.
  unfold Qle_bool, inject_Z. simpl. now rewrite !Z.mul_1_r.
Qed.

Lemma night_product (n : Z) : inject_Z (n * 20) * (13 # 10) == inject_Z (26 * n).
Proof.
  unfold Qeq, Qmult, inject_Z. cbn [Qnum Qden]. lia.
Qed.

(** The result for a non-empty array, in integers: the factor 1.3 turns the
    20 points of each analysis into 26. *)
Lemma calculateProbability_cons {A} (hour : Z) (a : A) (l : list A) :
  let m := Z.min ((if (hour <? 6) || (hour >? 23) then 26 else 20)
                  * len (a :: l)) 100 in
  calculateProbability hour (a :: l) =
  {| probability := m;
     risk_level := if 80 <=? m then "extreme"
                   else if 60 <=? m then "high" else "moderate";
     prediction := if 60 <=? m then "HIGH CRIME PROBABILITY"
                   else "Low risk" |}.
Proof.
  intros m. unfold calculateProbability.
  assert (Hn : (len (a :: l) =? 0) = false).
  { apply Z.eqb_neq. unfold len. simpl length. lia. }
  rewrite Hn. cbv zeta.
  set (base := if (hour <? 6) || (hour >? 23)
               then (inject_Z (len (a :: l) * 20) * (13 # 10))%Q
               else inject_Z (len (a :: l) * 20)).
  assert (E : Qmin base (inject_Z 100) == inject_Z m).
  { subst base m. destruct ((hour <? 6) || (hour >? 23)).
    - rewrite night_product. apply Qmin_inject_Z.
    - replace (len (a :: l) * 20) with (20 * len (a :: l)) by lia.
      apply Qmin_inject_Z. }
  unfold Math_round. rewrite !E.
  fold (Math_round (inject_Z m)).
  rewrite Math_round_inject_Z, !Qle_bool_inject_Z. reflexivity.
Qed.

Lemma getHours_range (t tza : Z) : 0 <= getHours t tza <= 23.
Proof.
  unfold getHours.
  pose proof (Z.mod_pos_bound ((t + tza) / 3600000) 24). lia.
Qed.

(** The estimator as the code computes it.  For no analysis it gives
    probability 0, risk minimal and "No threat signals".  For [n >= 1]
    analyses the base is [n * 20], times 1.3 when the test of the code,
    [hour < 6 || hour > 23], holds; the probability is
    [min(round(base), 100)], the risk level is extreme from 80, high from 60
    and moderate below, and the prediction is "HIGH CRIME PROBABILITY"
    exactly from 60. *)
Theorem calculateProbability_spec {A} (hour : Z) (a : A) (l : list A) :
  calculateProbability hour (@nil A) =
    {| probability := 0; risk_level := "minimal";
       prediction := "No threat signals" |} /\
  let threats := a :: l in
  let base : Q :=
    if (hour <? 6) || (hour >? 23)
    then (inject_Z (len threats * 20) * (13 # 10))%Q
    else inject_Z (len threats * 20) in
  let r := calculateProbability hour threats in
  probability r = Z.min (Math_round base) 100 /\
  risk_level r = (if 80 <=? probability r then "extreme"
                  else if 60 <=? probability r then "high"
                  else "moderate") /\
  prediction r = (if 60 <=? probability r then "HIGH CRIME PROBABILITY"
                  else "Low risk").
Proof.
  split; [reflexivity|].
  intros threats base r. subst r threats.
  rewrite calculateProbability_cons. cbv zeta. cbn [probability risk_level prediction].
  split; [|split; reflexivity].
  subst base. destruct ((hour <? 6) || (hour >? 23)).
  - rewrite (Math_round_comp (night_product _)), Math_round_inject_Z.
    reflexivity.
  - rewrite Math_round_inject_Z. f_equal. lia.
Qed.

(** C5, the failing hour.  At 23:30 local time, after 23:00, the hour read
    from the clock is 23 and the test [hour > 23] fails: one analysis gets
    the probability 20, where the base multiplied by 1.3 gives
    [min(round(20 * 1.3), 100) = 26], the value the estimator does return
    an hour later, at 00:30.  An analyze request for the text ["kill"]
    handled at 23:30 is answered with the probability 20. *)
Theorem night_elevation_missed_at_2330 :
  getHours (half_past 23) 0 = 23 /\
  calculateProbability (getHours (half_past 23) 0) [tt] =
    {| probability := 20; risk_level := "moderate";
       prediction := "Low risk" |} /\
  Z.min (Math_round (inject_Z (len [tt] * 20) * (13 # 10))) 100 = 26 /\
  probability (calculateProbability (getHours (half_past 23) 0) [tt]) <> 26 /\
  probability (calculateProbability (getHours (half_past 0) 0) [tt]) = 26 /\
  option_map probability
    (predictionOf (snd (onEnd toLowerCaseAscii (Some (VString (str "kill")))
                              env_2330 st0))) = Some 20.
Proof.
  split; [reflexivity|].
  split; [vm_compute; reflexivity|].
  split; [vm_compute; reflexivity|].
  split; [vm_compute; discriminate|].
  split; vm_compute; reflexivity.
Qed.

(** C10. The hour read from the clock lies between 0 and 23, so the test
    [hour > 23] never holds: the factor 1.3 is applied exactly in the hours
    0 to 5, and an analysis made in the hour 23 is not elevated. *)
Theorem night_multiplier_hours {A} (t tza : Z) (a : A) (l : list A) :
  let hour := getHours t tza in
  0 <= hour <= 23 /\
  (hour >? 23) = false /\
  ((hour <? 6) || (hour >? 23)) = ((0 <=? hour) && (hour <=? 5)) /\
  probability (calculateProbability hour (a :: l)) =
    Z.min ((if (0 <=? hour) && (hour <=? 5) then 26 else 20)
           * len (a :: l)) 100 /\
  getHours (23 * 3600000 + 1800000) 0 = 23 /\
  probability (calculateProbability 23 (a :: l)) =
    Z.min (20 * len (a :: l)) 100.
Proof.
  intros hour. pose proof (getHours_range t tza) as Hr. fold hour in Hr.
  assert (Hgt : (hour >? 23) = false) by (rewrite Z.gtb_ltb; apply Z.ltb_ge; lia).
  assert (Hc : ((hour <? 6) || (hour >? 23)) = ((0 <=? hour) && (hour <=? 5))).
  { rewrite Hgt, orb_false_r.
    destruct (Z.ltb_spec hour 6), (Z.leb_spec 0 hour), (Z.leb_spec hour 5);
      simpl; try reflexivity; lia. }
  split; [exact Hr|]. split; [exact Hgt|]. split; [exact Hc|].
  split; [|split; [reflexivity|]].
  - rewrite calculateProbability_cons. cbv zeta. cbn [probability].
    rewrite Hc. reflexivity.
  - rewrite calculateProbability_cons. reflexivity.
Qed.

(** ** The predictor over the log *)

Lemma riskCount_filter (log : list ThreatRecord) :
  len (filter (fun t => isRisk (levelOf (analysis t))) log) = riskCount log.
Proof.
  induction log as [|t log IH]; [reflexivity|].
  cbn [filter riskCount].
  destruct (levelOf (analysis t)); cbn [isRisk Level_eqb orb];
    rewrite <- IH; unfold len; cbn [length]; lia.
Qed.

Lemma riskCount_nonneg (log : list ThreatRecord) : 0 <= riskCount log.
Proof. rewrite <- riskCount_filter. apply len_nonneg. Qed.

Lemma riskCount_app (xs ys : list ThreatRecord) :
  riskCount (xs ++ ys) = riskCount xs + riskCount ys.
Proof.
  rewrite <- !riskCount_filter, filter_app, len_app. reflexivity.
Qed.

Lemma predict_citywide (log : list ThreatRecord) :
  citywide_risk (predict log) =
  (if 0 <? riskCount log then "elevated" else "low").
Proof.
  unfold predict. cbv zeta. cbn [citywide_risk].
  rewrite riskCount_filter, Z.gtb_ltb. reflexivity.
Qed.

(** C6. With [risk_count] the number of records of the log that are high or
    critical, the predictor returns the risk elevated exactly when
    [risk_count > 0] (else low), the count [risk_count * 3], the two
    hotspots exactly when [risk_count > 0] (else none) and the confidence
    high exactly when [risk_count > 2] (else medium); three such records
    give elevated, 9 and high. *)
Theorem predict_spec (log : list ThreatRecord) :
  let risk_count := riskCount log in
  let d := predict log in
  citywide_risk d = (if 0 <? risk_count then "elevated" else "low") /\
  predicted_crimes d = risk_count * 3 /\
  hotspots d = (if 0 <? risk_count then ["downtown"; "transit hub"] else []) /\
  confidence d = (if 2 <? risk_count then "high" else "medium") /\
  (risk_count = 3 ->
   citywide_risk d = "elevated" /\ predicted_crimes d = 9 /\
   confidence d = "high").
Proof.
  cbv zeta. unfold predict.
  cbn [citywide_risk predicted_crimes hotspots confidence].
  rewrite riskCount_filter, !Z.gtb_ltb.
  do 4 (split; [reflexivity|]).
  intros H. rewrite H. repeat split.
Qed.

Lemma predict_spec_witness :
  riskCount three_risky = 3 /\
  citywide_risk (predict three_risky) = "elevated" /\
  predicted_crimes (predict three_risky) = 9 /\
  confidence (predict three_risky) = "high".
Proof.
  assert (H : riskCount three_risky = 3) by (vm_compute; reflexivity).
  split; [exact H|].
  exact (proj2 (proj2 (proj2 (proj2 (predict_spec three_risky)))) H).
Defined.

(** ** Identifiers *)

Lemma digit36_upper (d : Z) :
  0 <= d < 36 -> isUpperAlnum (upperAscii (digit36 d)) = true.
Proof.
  intros H. unfold isUpperAlnum, upperAscii, digit36.
  destruct (Z.ltb_spec d 10).
  - replace ((97 <=? 48 + d) && (48 + d <=? 122)) with false
      by (symmetry; apply andb_false_iff; left; apply Z.leb_gt; lia).
    apply orb_true_iff. left. apply andb_true_iff. split; apply Z.leb_le; lia.
  - replace ((97 <=? 87 + d) && (87 + d <=? 122)) with true
      by (symmetry; apply andb_true_iff; split; apply Z.leb_le; lia).
    apply orb_true_iff. right. apply andb_true_iff. split; apply Z.leb_le; lia.
Qed.

(** X18. The number made from a draw: as many characters after ["N-"] as the
    draw has digits, up to 8, each a digit or an upper-case letter. *)
Lemma newNumber_form (ds : Draw) :
  Forall (fun d => 0 <= d < 36) ds ->
  exists suffix,
    newNumber ds = str "N-" ++ suffix /\
    len suffix = Z.min 8 (len ds) /\
    forallb isUpperAlnum suffix = true.
Proof.
  intros Hds. exists (map (fun d => upperAscii (digit36 d)) (firstn 8 ds)).
  split; [|split].
  - unfold newNumber, randomId, substr, toUpperCaseAscii.
    destruct ds as [|d ds]; [reflexivity|].
    unfold toString36. change (Z.to_nat 2) with 2%nat.
    change (Z.to_nat 8) with 8%nat.
    change (skipn 2 (str "0." ++ map digit36 (d :: ds)))
      with (map digit36 (d :: ds)).
    rewrite firstn_map, map_map. reflexivity.
  - unfold len. rewrite length_map, length_firstn. lia.
  - apply forallb_forall. intros c Hc.
    apply in_map_iff in Hc. destruct Hc as [d [<- Hd]].
    apply digit36_upper.
    rewrite Forall_forall in Hds. apply Hds.
    eapply (In_nth _ _ 0) in Hd. destruct Hd as [i [Hi <-]].
    rewrite nth_firstn.
    destruct (i <? 8)%nat eqn:E.
    + apply nth_In. rewrite length_firstn in Hi. lia.
    + apply Nat.ltb_ge in E. rewrite length_firstn in Hi. lia.
Qed.

(** C4, the failing draw. When [Math.random()] returns 1/2, printed ["0.i"]
    in base 36, the number is ["N-I"]: one character after ["N-"], not 8.
    An analyze request for the text ["kill"] then logs a record with this
    number and answers with it. *)
Theorem newNumber_half :
  draw_half = [18] /\
  toString36 draw_half = str "0.i" /\
  newNumber draw_half = str "N-I" /\
  map number
      (threatLog (fst (onEnd toLowerCaseAscii (Some (VString (str "kill")))
                             env_half st0))) =
    [str "N-ABC12345"; str "N-ABC12345"; str "N-I"] /\
  numberOf (snd (onEnd toLowerCaseAscii (Some (VString (str "kill")))
                       env_half st0)) = Some (str "N-I").
Proof.
  repeat split; vm_compute; reflexivity.
Qed.

(** ** The analyze entry point and the log *)

Lemma seeded_len (st : State) : seeded st -> 2 <= len (threatLog st).
Proof.
  intros (d1 & d2 & t1 & t2 & rest & E). rewrite E, len_app.
  pose proof (len_nonneg rest).
  change (len (demoThreats d1 d2 t1 t2)) with 2. lia.
Qed.

Lemma seeded_elevated (st : State) :
  seeded st -> citywide_risk (predict (threatLog st)) = "elevated".
Proof.
  intros (d1 & d2 & t1 & t2 & rest & E).
  rewrite predict_citywide, E, riskCount_app.
  pose proof (riskCount_nonneg rest).
  change (riskCount (demoThreats d1 d2 t1 t2)) with 2.
  destruct (Z.ltb_spec 0 (2 + riskCount rest)); [reflexivity | lia].
Qed.

Lemma fresh_Some {A} (entry : option (A * Z)) (now : Z) (data : A) :
  fresh entry now = Some data -> exists ts, entry = Some (data, ts).
Proof.
  unfold fresh. destruct entry as [[d ts]|]; [|discriminate].
  destruct (now - ts <? CACHE_TTL); [|discriminate].
  intros [= ->]. now exists ts.
Qed.

Lemma invariant_init (d1 d2 : Draw) (t1 t2 : Z) :
  invariant (initialState d1 d2 t1 t2).
Proof.
  split.
  - exists d1, d2, t1, t2, []. simpl. reflexivity.
  - split; intros d ts H; discriminate H.
Qed.

Lemma invariant_withCounts (st : State) rc :
  invariant st -> invariant (withCounts st rc).
Proof. intros H. exact H. Qed.

(** A route that leaves the state as it is and answers with data of the
    cache, or with none. *)
Ltac state_kept := split; [split; [|split]|]; simpl; eauto.

Lemma route_invariant (req : Request) (env : Env) (st : State) :
  invariant st ->
  invariant (fst (route req env st)) /\ seededResponse (snd (route req env st)).
Proof.
  intros [Hs [Hc1 Hc2]]. unfold route.
  destruct (String.eqb (method req) "OPTIONS"); [state_kept|].
  destruct (String.eqb (url req) "/" || String.eqb (url req) "");
    [state_kept|].
  destruct (String.eqb (url req) "/health"); [state_kept|].
  destruct (String.eqb (url req) "/analyze" && String.eqb (method req) "POST");
    [state_kept|].
  destruct (String.eqb (url req) "/statistics").
  { destruct (fresh (stats (cache st)) (t_check env)) as [data|] eqn:F.
    - apply fresh_Some in F. destruct F as [ts F]. state_kept.
    - split; [split; [exact Hs|split]|]; simpl.
      + intros d ts [= <- _]. apply (seeded_len Hs).
      + exact Hc2.
      + apply (seeded_len Hs). }
  destruct (String.eqb (url req) "/threats").
  { destruct (fresh (cached_threats (cache st)) (t_check env)) as [data|];
      split; try (split; [exact Hs|split]); simpl; auto. }
  destruct (String.eqb (url req) "/prediction").
  { destruct (fresh (pred (cache st)) (t_check env)) as [data|] eqn:F.
    - apply fresh_Some in F. destruct F as [ts F]. state_kept.
    - split; [split; [exact Hs|split]|]; simpl.
      + exact Hc1.
      + intros d ts [= <- _]. apply (seeded_elevated Hs).
      + apply (seeded_elevated Hs). }
  state_kept.
Qed.

(** The prediction route answers with [predict] of the log unless the cache
    holds an answer less than [CACHE_TTL] old. *)
Lemma prediction_route (req : Request) (env : Env) (st : State) :
  url req = "/prediction" ->
  String.eqb (method req) "OPTIONS" = false ->
  fresh (pred (cache st)) (t_check env) = None ->
  snd (route req env st) = PredictionSummary (predict (threatLog st)).
Proof.
  intros Hu Hm Hf. unfold route. rewrite Hu, Hm, Hf. reflexivity.
Qed.

Lemma handler_invariant (req : Request) (env : Env) (st : State) :
  invariant st ->
  invariant (fst (handler req env st)) /\
  seededResponse (snd (handler req env st)).
Proof.
  intros H. unfold handler.
  destruct (String.eqb (url req) "/analyze"); [|now apply route_invariant].
  destruct (checkRateLimit (t_rate env) (clientIp req) (requestCounts st))
    as [[|] rc].
  - apply route_invariant. now apply invariant_withCounts.
  - split; [now apply invariant_withCounts | exact I].
Qed.

Section ServerProperties.

Variable toLowerCase : JSString -> JSString.

(** What the callback of an analyze request answers with and logs. *)
Lemma onEnd_analyzed (body : option JSValue) (env : Env) (st st' : State)
    (id num : JSString) (a : AnalysisResult) (p : Prediction) :
  onEnd toLowerCase body env st = (st', Analyzed id num a p) ->
  exists input,
    body = Some (VString input) /\
    a = analyzeText toLowerCase (t_analyzed env) (slice0 5000 (trim input)) /\
    num = newNumber (d_number env) /\
    (isRisk (threat_level a) = true ->
     exists r, threatLog st' = threatLog st ++ [r] /\
               number r = newNumber (d_log env) /\ text r = input) /\
    (isRisk (threat_level a) = false -> st' = st).
Proof.
  unfold onEnd. destruct body as [[| | | |input|]|]; try discriminate.
  destruct ((len input =? 0) || (len (trim input) =? 0)); [discriminate|].
  destruct (len input >? 10000); [discriminate|].
  cbv zeta.
  remember (analyzeText toLowerCase (t_analyzed env)
              (slice0 5000 (trim input))) as an eqn:Ean.
  intros H. inversion H; subst st' id num a p; clear H.
  exists input. do 3 (split; [auto|]). split; intros Hr; rewrite Hr.
  - eexists. split; [reflexivity|]. split; reflexivity.
  - reflexivity.
Qed.

Lemma onEnd_invariant (body : option JSValue) (env : Env) (st : State) :
  invariant st ->
  invariant (fst (onEnd toLowerCase body env st)) /\
  seededResponse (snd (onEnd toLowerCase body env st)).
Proof.
  intros H. unfold onEnd.
  destruct body as [[| | | |text|]|]; try (split; [exact H|exact I]).
  destruct ((len text =? 0) || (len (trim text) =? 0));
    [split; [exact H|exact I]|].
  destruct (len text >? 10000); [split; [exact H|exact I]|].
  cbv zeta. split; [|exact I]. cbn [fst].
  destruct (isRisk _); [|exact H].
  destruct H as [(d1 & d2 & t1 & t2 & rest & E) Hc].
  split; [|exact Hc].
  exists d1, d2, t1, t2. eexists. cbn [withLog threatLog].
  rewrite E, <- app_assoc. reflexivity.
Qed.

Lemma reachable_invariant (st : State) :
  reachable toLowerCase st -> invariant st.
Proof.
  induction 1 as [d1 d2 t1 t2 | st ev _ IH].
  - apply invariant_init.
  - destruct ev as [req env | body env]; cbn [step].
    + now apply handler_invariant.
    + now apply onEnd_invariant.
Qed.

(** C3, amended. The [text_preview] of the analysis returned by the analyze
    entry point is the first 150 characters of the sanitized text (the input
    stripped of the white space at its ends, then cut to 5000 characters),
    followed by ["..."] exactly when the sanitized text has more than 150
    characters. *)
Theorem text_preview_of_sanitized (body : option JSValue) (env : Env)
    (st st' : State) (id num : JSString) (a : AnalysisResult)
    (p : Prediction) :
  onEnd toLowerCase body env st = (st', Analyzed id num a p) ->
  exists text,
    body = Some (VString text) /\
    text_preview a =
      slice0 150 (slice0 5000 (trim text))
      ++ (if len (slice0 5000 (trim text)) >? 150 then str "..." else []).
Proof.
  intros H. apply onEnd_analyzed in H.
  destruct H as (text & Hb & Ha & _). exists text. split; [exact Hb|].
  subst a. unfold analyzeText. cbv zeta. cbn [text_preview].
  destruct (Z.gtb_spec (len (slice0 5000 (trim text))) 150) as [Hl|Hl].
  - reflexivity.
  - rewrite app_nil_r. symmetry. apply slice0_all. exact Hl.
Qed.

(** C9. The log starts with two demo records, one critical and one high,
    and they stay: in every state of a run the log still begins with them,
    every statistics response reports at least 2 threats and every
    prediction response reports the risk elevated. *)
Theorem demo_records_always_present (st : State) :
  reachable toLowerCase st ->
  (forall d1 d2 t1 t2,
     map (fun t => levelOf (analysis t))
         (threatLog (initialState d1 d2 t1 t2)) = [critical; high]) /\
  seeded st /\
  2 <= len (threatLog st) /\
  forall ev : Event,
    match snd (step toLowerCase ev st) with
    | Statistics d => 2 <= total_threats d
    | PredictionSummary d => citywide_risk d = "elevated"
    | _ => True
    end.
Proof.
  intros Hr. apply reachable_invariant in Hr.
  split; [reflexivity|]. split; [exact (proj1 Hr)|].
  split; [exact (seeded_len (proj1 Hr))|].
  intros ev.
  assert (H : seededResponse (snd (step toLowerCase ev st))).
  { destruct ev as [req env | body env]; cbn [step].
    - now apply handler_invariant.
    - now apply onEnd_invariant. }
  exact H.
Qed.

End ServerProperties.

Lemma text_preview_of_sanitized_witness :
  exists text,
    Some (VString padded_text) = Some (VString text) /\
    text_preview (analyzeText toLowerCaseAscii 0 (str "a")) =
      slice0 150 (slice0 5000 (trim text))
      ++ (if len (slice0 5000 (trim text)) >? 150 then str "..." else []).
Proof.
  apply (@text_preview_of_sanitized toLowerCaseAscii
           (Some (VString padded_text)) env0 st0 st0
           (randomId draw11) (newNumber draw11)
           (analyzeText toLowerCaseAscii 0 (str "a"))
           (calculateProbability 0 (@nil AnalysisResult))).
  vm_compute. reflexivity.
Defined.

(** C3 as stated fails: for the letter a followed by 150 spaces the preview
    is the letter alone, neither the first 150 characters of the input nor
    followed by the suffix that an input of 151 characters would carry. *)
Lemma text_preview_counterexample :
  len padded_text = 151 /\
  previewOf (snd (onEnd toLowerCaseAscii (Some (VString padded_text))
                        env0 st0)) = Some (str "a") /\
  str "a" <> slice0 150 padded_text ++ str "..." /\
  str "a" <> slice0 150 padded_text.
Proof.
  split; [reflexivity|]. split; [vm_compute; reflexivity|].
  split; vm_compute; discriminate.
Qed.

Lemma demo_records_always_present_witness :
  seeded st0 /\
  2 <= len (threatLog st0) /\
  match snd (step toLowerCaseAscii (Call statistics_request env0) st0) with
  | Statistics d => 2 <= total_threats d
  | PredictionSummary d => citywide_risk d = "elevated"
  | _ => True
  end.
Proof.
  pose proof (@demo_records_always_present toLowerCaseAscii st0
                (reach_init toLowerCaseAscii draw11 draw11 0 0)) as H.
  destruct H as (_ & Hs & Hl & Hev).
  split; [exact Hs|]. split; [exact Hl|].
  exact (Hev (Call statistics_request env0)).
Defined.

(** * Further properties of the server *)

(** ** The rate limiter *)

Lemma map_get_filter_Some (f : string * list Z -> bool)
    (m : list (string * list Z)) (ip : string) (v : list Z) :
  map_get m ip = Some v -> f (ip, v) = true ->
  map_get (filter f m) ip = Some v.
Proof.
  induction m as [|[k w] m IH]; simpl; [discriminate|].
  destruct (String.eqb k ip) eqn:E.
  - apply String.eqb_eq in E. subst k. intros [= ->] Hf.
    rewrite Hf. simpl. now rewrite String.eqb_refl.
  - intros Hg Hf. destruct (f (k, w)); simpl; [rewrite E|]; auto.
Qed.

Lemma map_get_filter_None (f : string * list Z -> bool)
    (m : list (string * list Z)) (ip : string) :
  map_get m ip = None -> map_get (filter f m) ip = None.
Proof.
  induction m as [|[k w] m IH]; simpl; [reflexivity|].
  destruct (String.eqb k ip) eqn:E; [discriminate|].
  intros Hg. destruct (f (k, w)); simpl; [rewrite E|]; auto.
Qed.

Lemma map_get_absent (m : list (string * list Z)) (ip : string) :
  ~ In ip (map fst m) -> map_get m ip = None.
Proof.
  induction m as [|[k w] m IH]; simpl; [reflexivity|].
  intros H. destruct (String.eqb k ip) eqn:E.
  - apply String.eqb_eq in E. tauto.
  - apply IH. tauto.
Qed.

Lemma map_get_filter_dropped (f : string * list Z -> bool)
    (m : list (string * list Z)) (ip : string) (v : list Z) :
  NoDup (map fst m) -> map_get m ip = Some v -> f (ip, v) = false ->
  map_get (filter f m) ip = None.
Proof.
  induction m as [|[k w] m IH]; simpl; [discriminate|].
  intros Hnd. inversion Hnd as [|? ? Hk Hm]; subst.
  destruct (String.eqb k ip) eqn:E.
  - apply String.eqb_eq in E. subst k. intros [= ->] Hf. rewrite Hf.
    apply map_get_filter_None, map_get_absent, Hk.
  - intros Hg Hf. destruct (f (k, w)); simpl; [rewrite E|]; auto.
Qed.

Lemma map_get_set (m : list (string * list Z)) (ip : string) (v : list Z) :
  map_get (map_set m ip v) ip = Some v.
Proof.
  induction m as [|[k w] m IH]; simpl.
  - now rewrite String.eqb_refl.
  - destruct (String.eqb k ip) eqn:E; simpl; rewrite E; auto.
Qed.

Lemma map_get_set_other (m : list (string * list Z)) (ip ip' : string)
    (v : list Z) :
  ip' <> ip -> map_get (map_set m ip v) ip' = map_get m ip'.
Proof.
  intros Hne. induction m as [|[k w] m IH]; simpl.
  - destruct (String.eqb ip ip') eqn:E; [|reflexivity].
    apply String.eqb_eq in E. congruence.
  - destruct (String.eqb k ip) eqn:E; simpl.
    + apply String.eqb_eq in E. subst k.
      destruct (String.eqb ip ip') eqn:E'; [|reflexivity].
      apply String.eqb_eq in E'. congruence.
    + destruct (String.eqb k ip'); auto.
Qed.

Lemma checkRateLimit_kept (now : Z) (ip : string)
    (rc : list (string * list Z)) (old : list Z) :
  map_get rc ip = Some old ->
  arrayLessThan old (now - RATE_LIMIT_WINDOW) = false ->
  checkRateLimit now ip rc =
  if len (filter (fun t => t >? now - RATE_LIMIT_WINDOW) old) >=? RATE_LIMIT_MAX
  then (false, cleaned now rc)
  else (true, map_set (cleaned now rc) ip (old ++ [now])).
Proof.
  intros Hg Hk.
  assert (Hc : map_get (cleaned now rc) ip = Some old).
  { apply map_get_filter_Some; [exact Hg|]. simpl. now rewrite Hk. }
  unfold checkRateLimit. cbv zeta. fold (cleaned now rc).
  rewrite Hc. reflexivity.
Qed.

Lemma checkRateLimit_fresh (now : Z) (ip : string)
    (rc : list (string * list Z)) :
  map_get (cleaned now rc) ip = None ->
  checkRateLimit now ip rc = (true, map_set (cleaned now rc) ip [now]).
Proof.
  intros Hg. unfold checkRateLimit. cbv zeta. fold (cleaned now rc).
  rewrite Hg. reflexivity.
Qed.

Lemma all_in_window (ws : Z) (old : list Z) :
  (forall t, In t old -> ws < t) ->
  filter (fun t => t >? ws) old = old.
Proof.
  induction old as [|t old IH]; simpl; [reflexivity|].
  intros H. rewrite Z.gtb_ltb.
  destruct (Z.ltb_spec ws t) as [_|Hle].
  - f_equal. apply IH. auto.
  - specialize (H t (or_introl eq_refl)). lia.
Qed.

Lemma recent_not_cleaned (ws : Z) (old : list Z) :
  old <> [] -> (forall t, In t old -> ws < t) -> arrayLessThan old ws = false.
Proof.
  intros Hne H. destruct old as [|t [|t' old]]; [congruence| |reflexivity].
  simpl. apply Z.ltb_ge. specialize (H t (or_introl eq_refl)). lia.
Qed.

(** A burst that continues from a recorded array [old]: as many calls are
    let through as [old] leaves room for under the maximum. *)
Lemma burst_continues (ip : string) (times : list Z) :
  forall (rc : list (string * list Z)) (old : list Z),
    map_get rc ip = Some old -> old <> [] ->
    (length old <= 30)%nat ->
    (forall t now, In t old -> In now times -> now - t < RATE_LIMIT_WINDOW) ->
    (forall t now, In t times -> In now times -> now - t < RATE_LIMIT_WINDOW) ->
    fst (checkAll ip times rc) =
    repeat true (Nat.min (length times) (30 - length old))
    ++ repeat false (length times - (30 - length old)).
Proof.
  induction times as [|now times IH]; intros rc old Hg Hne Hlen Hold Hin;
    [reflexivity|].
  cbn [checkAll].
  assert (Hw : forall t, In t old -> now - RATE_LIMIT_WINDOW < t).
  { intros t Ht. specialize (Hold t now Ht (or_introl eq_refl)). lia. }
  rewrite (checkRateLimit_kept _ _ _ Hg (recent_not_cleaned Hne Hw)).
  rewrite (all_in_window _ Hw).
  assert (Hc : map_get (cleaned now rc) ip = Some old).
  { apply map_get_filter_Some; [exact Hg|].
    simpl. now rewrite (recent_not_cleaned Hne Hw). }
  unfold RATE_LIMIT_MAX, len.
  destruct (Z.geb_spec (Z.of_nat (length old)) 30) as [Hfull|Hroom].
  - assert (Hl : length old = 30%nat) by lia.
    specialize (IH (cleaned now rc) old Hc Hne Hlen).
    destruct (checkAll ip times (cleaned now rc)) as [oks rc''].
    cbn [fst] in *. rewrite IH.
    + rewrite Hl. replace (30 - 30)%nat with 0%nat by lia.
      rewrite !Nat.min_0_r, !Nat.sub_0_r. reflexivity.
    + intros t now' Ht Hn. apply Hold; [exact Ht | now right].
    + intros t now' Ht Hn. apply Hin; now right.
  - assert (Hs : map_get (map_set (cleaned now rc) ip (old ++ [now])) ip
                 = Some (old ++ [now])) by apply map_get_set.
    specialize (IH _ _ Hs).
    destruct (checkAll ip times (map_set (cleaned now rc) ip (old ++ [now])))
      as [oks rc''].
    cbn [fst] in *. rewrite IH.
    + rewrite length_app. cbn [length].
      replace (30 - length old)%nat with (S (30 - (length old + 1)))%nat by lia.
      cbn [length]. rewrite <- Nat.succ_min_distr. cbn [repeat app].
      f_equal.
    + destruct old; [congruence | discriminate].
    + rewrite length_app. cbn [length]. lia.
    + intros t now' Ht Hn. apply in_app_or in Ht. destruct Ht as [Ht|[<-|[]]].
      * apply Hold; [exact Ht | now right].
      * apply Hin; [now left | now right].
    + intros t now' Ht Hn. apply Hin; now right.
Qed.

Lemma checkRateLimit_map (now : Z) (ip : string) (rc : list (string * list Z)) :
  snd (checkRateLimit now ip rc) = cleaned now rc \/
  exists v, checkRateLimit now ip rc = (true, map_set (cleaned now rc) ip v).
Proof.
  unfold checkRateLimit. cbv zeta. fold (cleaned now rc).
  destruct (_ >=? RATE_LIMIT_MAX); [left; reflexivity|].
  right. eexists. reflexivity.
Qed.

Lemma stale_not_counted (ws : Z) (old : list Z) :
  (forall t, In t old -> t <= ws) -> filter (fun t => t >? ws) old = [].
Proof.
  induction old as [|t old IH]; simpl; [reflexivity|].
  intros H. rewrite Z.gtb_ltb.
  destruct (Z.ltb_spec ws t) as [Hlt|_].
  - specialize (H t (or_introl eq_refl)). lia.
  - apply IH. auto.
Qed.

(** X1. A client unknown to the limiter that calls at times any two of which
    are less than a minute apart is let through 30 times and refused from
    the 31st call on. *)
Theorem burst_of_requests (ip : string) (times : list Z)
    (rc : list (string * list Z)) :
  map_get rc ip = None ->
  (forall t now, In t times -> In now times -> now - t < RATE_LIMIT_WINDOW) ->
  fst (checkAll ip times rc) =
  repeat true (Nat.min (length times) 30) ++ repeat false (length times - 30).
Proof.
  intros Hg Hin. destruct times as [|now times]; [reflexivity|].
  cbn [checkAll].
  rewrite checkRateLimit_fresh by (apply map_get_filter_None, Hg).
  pose proof (@burst_continues ip times (map_set (cleaned now rc) ip [now])
                [now] (map_get_set _ _ _)) as H.
  destruct (checkAll ip times (map_set (cleaned now rc) ip [now]))
    as [oks rc''].
  cbn [fst] in *. rewrite H.
  - cbn [length]. replace (30 - 1)%nat with 29%nat by reflexivity.
    change 30%nat with (S 29). rewrite <- Nat.succ_min_distr.
    reflexivity.
  - discriminate.
  - cbn [length]. lia.
  - intros t now' [<-|[]] Hn. apply Hin; [now left | now right].
  - intros t now' Ht Hn. apply Hin; now right.
Qed.

Lemma burst_of_requests_witness :
  fst (checkAll "10.0.0.1" (repeat 1000 31) []) = repeat true 30 ++ [false].
Proof.
  apply (@burst_of_requests "10.0.0.1" (repeat 1000 31) []).
  - reflexivity.
  - intros t now Ht Hn.
    apply repeat_spec in Ht. apply repeat_spec in Hn. subst.
    reflexivity.
Defined.

(** X2. The entry of a client with two or more recorded times is never
    deleted and never loses a time, however old: after any call of any
    client it holds the same array, or, for an accepted call of that
    client, the array with the time of the call appended. *)
Theorem recorded_times_never_dropped (now : Z) (ip ip' : string)
    (rc : list (string * list Z)) (old : list Z) :
  map_get rc ip' = Some old ->
  2 <= len old ->
  map_get (snd (checkRateLimit now ip rc)) ip' = Some old \/
  (ip' = ip /\ fst (checkRateLimit now ip rc) = true /\
   map_get (snd (checkRateLimit now ip rc)) ip' = Some (old ++ [now])).
Proof.
  intros Hg Hlen.
  assert (Hk : arrayLessThan old (now - RATE_LIMIT_WINDOW) = false).
  { destruct old as [|t [|t' old]]; unfold len in Hlen; simpl in Hlen;
      [lia | lia | reflexivity]. }
  assert (Hc : map_get (cleaned now rc) ip' = Some old).
  { apply map_get_filter_Some; [exact Hg|]. simpl. now rewrite Hk. }
  destruct (string_dec ip' ip) as [->|Hne].
  - rewrite (checkRateLimit_kept _ _ _ Hg Hk).
    destruct (_ >=? RATE_LIMIT_MAX); cbn [fst snd].
    + left. exact Hc.
    + right. split; [reflexivity|]. split; [reflexivity|]. apply map_get_set.
  - left. destruct (checkRateLimit_map now ip rc) as [E|[v E]]; rewrite E.
    + exact Hc.
    + cbn [snd]. now rewrite map_get_set_other.
Qed.

Lemma recorded_times_never_dropped_witness :
  map_get (snd (checkRateLimit 1000000 "a" [("a", [1; 2])])) "a"
    = Some [1; 2] \/
  ("a" = "a" /\ fst (checkRateLimit 1000000 "a" [("a", [1; 2])]) = true /\
   map_get (snd (checkRateLimit 1000000 "a" [("a", [1; 2])])) "a"
     = Some ([1; 2] ++ [1000000])).
Proof.
  apply (@recorded_times_never_dropped 1000000 "a" "a" [("a", [1; 2])] [1; 2]).
  - reflexivity.
  - vm_compute. discriminate.
Defined.

(** X3. A client none of whose recorded times lies in the last minute is
    let through.  It starts afresh with the time of the call when it had no
    entry or a single recorded time (the cleaning loop has deleted it), and
    keeps all its stale times when it had two or more. *)
Theorem quiet_client_allowed (now : Z) (ip : string)
    (rc : list (string * list Z)) :
  NoDup (map fst rc) ->
  (forall old t, map_get rc ip = Some old -> In t old ->
                 t < now - RATE_LIMIT_WINDOW) ->
  fst (checkRateLimit now ip rc) = true /\
  map_get (snd (checkRateLimit now ip rc)) ip =
    Some (match map_get rc ip with
          | Some (t1 :: t2 :: old) => (t1 :: t2 :: old) ++ [now]
          | _ => [now]
          end).
Proof.
  intros Hnd Hq. destruct (map_get rc ip) as [old|] eqn:Hg.
  - specialize (Hq old).
    destruct old as [|t1 [|t2 old]].
    + (* an empty array: not below a positive bound only when the bound is
         not positive; either way nothing is counted *)
      destruct (arrayLessThan [] (now - RATE_LIMIT_WINDOW)) eqn:Hk.
      * rewrite checkRateLimit_fresh
          by (eapply map_get_filter_dropped; eauto; cbn [snd]; now rewrite Hk).
        split; [reflexivity | apply map_get_set].
      * rewrite (checkRateLimit_kept _ _ _ Hg Hk). simpl.
        split; [reflexivity | apply map_get_set].
    + assert (Hk : arrayLessThan [t1] (now - RATE_LIMIT_WINDOW) = true).
      { simpl. apply Z.ltb_lt. apply Hq; [reflexivity | now left]. }
      rewrite checkRateLimit_fresh
        by (eapply map_get_filter_dropped; eauto; cbn [snd]; now rewrite Hk).
      split; [reflexivity | apply map_get_set].
    + rewrite (checkRateLimit_kept _ _ _ Hg) by reflexivity.
      rewrite stale_not_counted
        by (intros t Ht; specialize (Hq t eq_refl Ht); lia).
      split; [reflexivity | apply map_get_set].
  - rewrite checkRateLimit_fresh by (apply map_get_filter_None, Hg).
    split; [reflexivity | apply map_get_set].
Qed.

Lemma quiet_client_allowed_witness :
  fst (checkRateLimit 1000000 "a" [("a", [5])]) = true /\
  map_get (snd (checkRateLimit 1000000 "a" [("a", [5])])) "a"
    = Some [1000000].
Proof.
  apply (@quiet_client_allowed 1000000 "a" [("a", [5])]).
  - repeat constructor. simpl. tauto.
  - intros old t [= <-] [<-|[]]. reflexivity.
Defined.

(** ** The statistics *)

Lemma Level_eqb_sym (a b : Level) : Level_eqb a b = Level_eqb b a.
Proof. destruct a, b; reflexivity. Qed.

Lemma count_loop (level : Level) (log : list ThreatRecord) :
  forall byLevel : Level -> Z,
    fold_left countLevel log byLevel level =
    byLevel level + countOfLevel level log.
Proof.
  induction log as [|t log IH]; intros byLevel.
  - unfold countOfLevel, len. simpl. lia.
  - cbn [fold_left]. rewrite IH. unfold countLevel.
    unfold countOfLevel. cbn [filter].
    rewrite (Level_eqb_sym level).
    destruct (Level_eqb (levelOf (analysis t)) level);
      unfold len; cbn [length]; lia.
Qed.

Lemma counts_partition (log : list ThreatRecord) :
  countOfLevel critical log + countOfLevel high log
  + countOfLevel medium log + countOfLevel low log = len log.
Proof.
  unfold countOfLevel. induction log as [|t log IH]; [reflexivity|].
  cbn [filter]. unfold len in *.
  destruct (levelOf (analysis t)); cbn [Level_eqb length]; lia.
Qed.

Lemma risk_counts (log : list ThreatRecord) :
  Forall riskRecord log ->
  countOfLevel medium log = 0 /\ countOfLevel low log = 0 /\
  riskCount log = len log.
Proof.
  unfold countOfLevel, riskRecord.
  induction 1 as [|t log Ht _ IH]; [repeat split|].
  cbn [filter riskCount]. unfold len in *.
  destruct (levelOf (analysis t)); try discriminate Ht;
    cbn [Level_eqb length]; lia.
Qed.

Lemma summarize_counts (log : list ThreatRecord) (level : Level) :
  fold_left countLevel log (fun _ => 0) level = countOfLevel level log.
Proof. rewrite count_loop. lia. Qed.

(** X4. The statistics count every record of the log once: the counter of a
    level is the number of records of that level, and the four counters add
    up to [total_threats], the length of the log. *)
Theorem statistics_partition (log : list ThreatRecord) :
  let d := summarize log in
  total_threats d = len log /\
  (forall level, by_level d level = countOfLevel level log) /\
  by_level d critical + by_level d high + by_level d medium + by_level d low
    = total_threats d.
Proof.
  cbv zeta. unfold summarize. cbn [total_threats by_level].
  split; [reflexivity|].
  split; [apply summarize_counts|].
  rewrite !(summarize_counts log). apply counts_partition.
Qed.

(** ** What an event changes *)

Ltac route_cases :=
  unfold route;
  repeat match goal with
         | |- context [if ?b then _ else _] => destruct b
         end;
  repeat match goal with
         | |- context [fresh ?e ?t] => destruct (fresh e t)
         end.

Lemma route_log (req : Request) (env : Env) (st : State) :
  threatLog (fst (route req env st)) = threatLog st /\
  requestCounts (fst (route req env st)) = requestCounts st.
Proof. route_cases; split; reflexivity. Qed.

Lemma handler_log (req : Request) (env : Env) (st : State) :
  threatLog (fst (handler req env st)) = threatLog st.
Proof.
  unfold handler. destruct (String.eqb (url req) "/analyze").
  - destruct (checkRateLimit _ _ _) as [[|] rc]; [|reflexivity].
    now rewrite (proj1 (route_log req env (withCounts st rc))).
  - apply route_log.
Qed.

Lemma summarize_riskOnly (log : list ThreatRecord) :
  Forall riskRecord log -> 2 <= len log -> riskOnlyStats (summarize log).
Proof.
  intros Hr Hl. destruct (risk_counts Hr) as (Hm & Hlow & _).
  pose proof (counts_partition log) as Hp.
  unfold riskOnlyStats, summarize. cbn [by_level total_threats].
  rewrite !summarize_counts. repeat split; lia.
Qed.

Lemma predict_alarmed (log : list ThreatRecord) :
  Forall riskRecord log -> 2 <= len log -> alarmedPrediction (predict log).
Proof.
  intros Hr Hl. destruct (risk_counts Hr) as (_ & _ & Hc).
  unfold alarmedPrediction, predict. cbv zeta.
  cbn [predicted_crimes hotspots].
  rewrite riskCount_filter, Hc. split; [lia|].
  split; [apply Z.mod_mul; lia|].
  destruct (Z.gtb_spec (len log) 0); [reflexivity | lia].
Qed.

Lemma riskOnly_init (d1 d2 : Draw) (t1 t2 : Z) :
  riskOnly (initialState d1 d2 t1 t2).
Proof.
  split; [|split; intros d ts H; discriminate H].
  repeat constructor.
Qed.

Lemma route_riskOnly (req : Request) (env : Env) (st : State) :
  seeded st -> riskOnly st ->
  riskOnly (fst (route req env st)) /\ riskOnlyResponse (snd (route req env st)).
Proof.
  intros Hs (Hr & Hc1 & Hc2). pose proof (seeded_len Hs) as Hl.
  unfold route.
  destruct (String.eqb (method req) "OPTIONS"); [state_kept|].
  destruct (String.eqb (url req) "/" || String.eqb (url req) "");
    [state_kept|].
  destruct (String.eqb (url req) "/health"); [state_kept|].
  destruct (String.eqb (url req) "/analyze" && String.eqb (method req) "POST");
    [state_kept|].
  destruct (String.eqb (url req) "/statistics").
  { destruct (fresh (stats (cache st)) (t_check env)) as [data|] eqn:F.
    - apply fresh_Some in F. destruct F as [ts F]. state_kept.
    - split; [split; [exact Hr|split]|]; simpl.
      + intros d ts [= <- _]. now apply summarize_riskOnly.
      + exact Hc2.
      + now apply summarize_riskOnly. }
  destruct (String.eqb (url req) "/threats").
  { destruct (fresh (cached_threats (cache st)) (t_check env)) as [data|];
      split; try (split; [exact Hr|split]); simpl; auto. }
  destruct (String.eqb (url req) "/prediction").
  { destruct (fresh (pred (cache st)) (t_check env)) as [data|] eqn:F.
    - apply fresh_Some in F. destruct F as [ts F]. state_kept.
    - split; [split; [exact Hr|split]|]; simpl.
      + exact Hc1.
      + intros d ts [= <- _]. now apply predict_alarmed.
      + now apply predict_alarmed. }
  state_kept.
Qed.

Lemma handler_riskOnly (req : Request) (env : Env) (st : State) :
  seeded st -> riskOnly st ->
  riskOnly (fst (handler req env st)) /\
  riskOnlyResponse (snd (handler req env st)).
Proof.
  intros Hs H. unfold handler.
  destruct (String.eqb (url req) "/analyze"); [|now apply route_riskOnly].
  destruct (checkRateLimit (t_rate env) (clientIp req) (requestCounts st))
    as [[|] rc].
  - now apply route_riskOnly.
  - split; [exact H | exact I].
Qed.

Lemma trim_blank (input : JSString) : len input = 0 -> len (trim input) = 0.
Proof.
  destruct input; [reflexivity|]. unfold len. simpl length. lia.
Qed.

Lemma slice_last_split {A} (n : Z) (xs : list A) :
  0 <= n ->
  exists older, xs = older ++ slice_last n xs /\
                len (slice_last n xs) = Z.min n (len xs).
Proof.
  intros Hn. unfold slice_last.
  exists (firstn (Z.to_nat (Z.max (len xs - n) 0)) xs).
  split; [symmetry; apply firstn_skipn|].
  unfold len. rewrite length_skipn. unfold len. lia.
Qed.

Lemma handler_other_route (req : Request) (env : Env) (st : State) :
  String.eqb (url req) "/analyze" = false ->
  handler req env st = route req env st.
Proof. intros H. unfold handler. now rewrite H. Qed.

Lemma statistics_miss (req : Request) (env : Env) (st : State) :
  url req = "/statistics" ->
  String.eqb (method req) "OPTIONS" = false ->
  fresh (stats (cache st)) (t_check env) = None ->
  handler req env st =
  (withCache st {| stats := Some (summarize (threatLog st), t_store env);
                   pred := pred (cache st);
                   cached_threats := cached_threats (cache st) |},
   Statistics (summarize (threatLog st))).
Proof.
  intros Hu Hm Hf. rewrite handler_other_route by (now rewrite Hu).
  unfold route. rewrite Hu, Hm, Hf. reflexivity.
Qed.

Lemma statistics_hit (req : Request) (env : Env) (st : State)
    (d : StatsData) (ts : Z) :
  url req = "/statistics" ->
  String.eqb (method req) "OPTIONS" = false ->
  stats (cache st) = Some (d, ts) ->
  t_check env - ts < CACHE_TTL ->
  handler req env st = (st, Statistics d).
Proof.
  intros Hu Hm Hc Ht. rewrite handler_other_route by (now rewrite Hu).
  unfold route. rewrite Hu, Hm. cbn [String.eqb Ascii.eqb Bool.eqb orb andb].
  unfold fresh. rewrite Hc.
  destruct (Z.ltb_spec (t_check env - ts) CACHE_TTL); [reflexivity | lia].
Qed.

(** X5. The threats route, when the cache holds no answer younger than 5 s,
    returns the most recent records of the log, 20 at most, in the order of
    the log, and the length of the whole log as [total]. *)
Theorem threats_most_recent (req : Request) (env : Env) (st : State) :
  url req = "/threats" ->
  String.eqb (method req) "OPTIONS" = false ->
  fresh (cached_threats (cache st)) (t_check env) = None ->
  exists older shown,
    snd (handler req env st) =
      Threats {| threats := shown; total := len (threatLog st) |} /\
    threatLog st = older ++ shown /\
    len shown = Z.min 20 (len (threatLog st)).
Proof.
  intros Hu Hm Hf.
  destruct (@slice_last_split _ 20 (threatLog st)) as (older & Hs & Hl); [lia|].
  exists older, (slice_last 20 (threatLog st)).
  split; [|split; assumption].
  rewrite handler_other_route by (now rewrite Hu).
  unfold route. rewrite Hu, Hm, Hf. reflexivity.
Qed.

Lemma threats_most_recent_witness :
  exists older shown,
    snd (handler threats_get env0 st0) =
      Threats {| threats := shown; total := len (threatLog st0) |} /\
    threatLog st0 = older ++ shown /\
    len shown = Z.min 20 (len (threatLog st0)).
Proof.
  apply (@threats_most_recent threats_get env0 st0); reflexivity.
Defined.

Section RunProperties.

Variable toLowerCase : JSString -> JSString.

Lemma onEnd_frame (body : option JSValue) (env : Env) (st : State) :
  cache (fst (onEnd toLowerCase body env st)) = cache st /\
  requestCounts (fst (onEnd toLowerCase body env st)) = requestCounts st.
Proof.
  unfold onEnd.
  destruct body as [[| | | |input|]|]; try (split; reflexivity).
  destruct ((len input =? 0) || (len (trim input) =? 0));
    [split; reflexivity|].
  destruct (len input >? 10000); [split; reflexivity|].
  cbv zeta. cbn [fst]. destruct (isRisk _); split; reflexivity.
Qed.

Lemma onEnd_log (body : option JSValue) (env : Env) (st : State) :
  exists added,
    threatLog (fst (onEnd toLowerCase body env st)) = threatLog st ++ added /\
    len added <= 1 /\
    Forall (fun r => source r = "api" /\ riskRecord r) added.
Proof.
  assert (Hsame : exists added : list ThreatRecord,
             threatLog st = threatLog st ++ added /\ len added <= 1 /\
             Forall (fun r => source r = "api" /\ riskRecord r) added).
  { exists []. rewrite app_nil_r. repeat split; [unfold len; simpl; lia|].
    constructor. }
  unfold onEnd.
  destruct body as [[| | | |input|]|]; try exact Hsame.
  destruct ((len input =? 0) || (len (trim input) =? 0)); [exact Hsame|].
  destruct (len input >? 10000); [exact Hsame|].
  cbv zeta. cbn [fst].
  destruct (isRisk _) eqn:Hr; [|exact Hsame].
  eexists. cbn [withLog threatLog]. split; [reflexivity|].
  split; [unfold len; simpl; lia|].
  constructor; [|constructor]. split; [reflexivity | exact Hr].
Qed.

Lemma onEnd_riskOnly (body : option JSValue) (env : Env) (st : State) :
  riskOnly st ->
  riskOnly (fst (onEnd toLowerCase body env st)) /\
  riskOnlyResponse (snd (onEnd toLowerCase body env st)).
Proof.
  intros (Hr & Hc). split.
  - destruct (onEnd_frame body env st) as [Hcache _].
    destruct (onEnd_log body env st) as (added & Hlog & _ & Hadd).
    split; [|rewrite Hcache; exact Hc].
    rewrite Hlog. apply Forall_app. split; [exact Hr|].
    eapply Forall_impl; [|exact Hadd]. now intros r [_ H].
  - unfold onEnd.
    destruct body as [[| | | |input|]|]; try exact I.
    destruct ((len input =? 0) || (len (trim input) =? 0)); [exact I|].
    destruct (len input >? 10000); exact I.
Qed.

Lemma reachable_riskOnly (st : State) :
  reachable toLowerCase st -> seeded st /\ riskOnly st.
Proof.
  intros Hr. split; [apply (reachable_invariant Hr)|].
  induction Hr as [d1 d2 t1 t2 | st ev Hr IH].
  - apply riskOnly_init.
  - pose proof (proj1 (reachable_invariant Hr)) as Hs.
    destruct ev as [req env | body env]; cbn [step].
    + now apply handler_riskOnly.
    + now apply onEnd_riskOnly.
Qed.

(** X6. Over any sequence of events the log only grows, at its end: the
    records it held stay in place, at most one record is added for each
    body of an analyze request, and every added record has the source
    ["api"] and the level critical or high. *)
Theorem log_append_only (evs : list Event) :
  forall st : State,
  exists added,
    threatLog (run toLowerCase evs st) = threatLog st ++ added /\
    len added <= len (filter isBodyEnd evs) /\
    Forall (fun r => source r = "api" /\ riskRecord r) added.
Proof.
  induction evs as [|ev evs IH]; intros st.
  - exists []. rewrite app_nil_r. repeat split; [reflexivity | constructor].
  - cbn [run].
    destruct (IH (fst (step toLowerCase ev st))) as (more & Hm & Hlen & Hall).
    destruct ev as [req env | body env]; cbn [step filter isBodyEnd] in *.
    + exists more. rewrite Hm, handler_log. auto.
    + destruct (onEnd_log body env st) as (added & Ha & Hl1 & Hall1).
      exists (added ++ more). rewrite Hm, Ha, <- app_assoc.
      split; [reflexivity|]. split.
      * rewrite len_app. unfold len in *. cbn [length]. lia.
      * apply Forall_app. now split.
Qed.

(** X7. In every state of a run the log holds critical and high records
    only.  Hence every statistics response, cached or not, reports no
    medium and no low record and as many critical and high records as
    [total_threats], and every prediction response reports a count that is
    a multiple of 3, at least 6, with both hotspots. *)
Theorem log_of_risk_records (st : State) :
  reachable toLowerCase st ->
  Forall riskRecord (threatLog st) /\
  riskCount (threatLog st) = len (threatLog st) /\
  forall ev : Event,
    match snd (step toLowerCase ev st) with
    | Statistics d =>
        by_level d medium = 0 /\ by_level d low = 0 /\
        by_level d critical + by_level d high = total_threats d
    | PredictionSummary d =>
        6 <= predicted_crimes d /\ (predicted_crimes d) mod 3 = 0 /\
        hotspots d = ["downtown"; "transit hub"]
    | _ => True
    end.
Proof.
  intros Hr. apply reachable_riskOnly in Hr. destruct Hr as [Hs Hr].
  split; [exact (proj1 Hr)|].
  split; [exact (proj2 (proj2 (risk_counts (proj1 Hr))))|].
  intros ev.
  assert (H : riskOnlyResponse (snd (step toLowerCase ev st))).
  { destruct ev as [req env | body env]; cbn [step].
    - now apply handler_riskOnly.
    - now apply onEnd_riskOnly. }
  destruct (snd (step toLowerCase ev st)); try exact I.
  - destruct H as (H1 & H2 & H3 & _). auto.
  - exact H.
Qed.

(** X8. What an event leaves alone.  A call of [handler] never changes the
    log; it changes the map of the rate limiter only for the path
    ["/analyze"], whatever the method, and the cache only for the three
    cached routes.  The callback of a body changes neither the cache nor
    the map of the rate limiter, so that logging a threat invalidates no
    cached answer. *)
Theorem step_frame (ev : Event) (st : State) :
  match ev with
  | Call req env =>
      let st' := fst (handler req env st) in
      threatLog st' = threatLog st /\
      (url req <> "/analyze" ->
       requestCounts st' = requestCounts st /\
       snd (handler req env st) <> TooManyRequests) /\
      (url req = "/analyze" ->
       requestCounts st' =
         snd (checkRateLimit (t_rate env) (clientIp req) (requestCounts st))) /\
      (cache st' <> cache st ->
       url req = "/statistics" \/ url req = "/threats" \/
       url req = "/prediction")
  | BodyEnd body env =>
      let st' := fst (onEnd toLowerCase body env st) in
      cache st' = cache st /\ requestCounts st' = requestCounts st
  end.
Proof.
  destruct ev as [req env | body env]; cbv zeta; [|apply onEnd_frame].
  split; [apply handler_log|]. split; [|split].
  - intros Hne. apply String.eqb_neq in Hne.
    rewrite handler_other_route by exact Hne.
    split; [apply route_log|]. route_cases; discriminate.
  - intros Hu. unfold handler. rewrite Hu. cbn [String.eqb Ascii.eqb Bool.eqb].
    destruct (checkRateLimit _ _ _) as [[|] rc]; cbn [snd]; [|reflexivity].
    now rewrite (proj2 (route_log req env (withCounts st rc))).
  - assert (Hroute : forall s, cache (fst (route req env s)) <> cache s ->
             url req = "/statistics" \/ url req = "/threats" \/
             url req = "/prediction").
    { intros s. unfold route.
      destruct (String.eqb (method req) "OPTIONS"); [now intros []|].
      destruct (String.eqb (url req) "/" || String.eqb (url req) "");
        [now intros []|].
      destruct (String.eqb (url req) "/health"); [now intros []|].
      destruct (String.eqb (url req) "/analyze"
                && String.eqb (method req) "POST"); [now intros []|].
      destruct (String.eqb (url req) "/statistics") eqn:E1;
        [apply String.eqb_eq in E1; auto|].
      destruct (String.eqb (url req) "/threats") eqn:E2;
        [apply String.eqb_eq in E2; auto|].
      destruct (String.eqb (url req) "/prediction") eqn:E3;
        [apply String.eqb_eq in E3; auto|].
      now intros []. }
    unfold handler. destruct (String.eqb (url req) "/analyze");
      [|apply Hroute].
    destruct (checkRateLimit _ _ _) as [[|] rc]; [|now intros []].
    apply (Hroute (withCounts st rc)).
Qed.

(** X9. An answer of the statistics route is kept for 5 s.  When the route
    has computed its answer from the log, a later request whose clock
    reading is less than 5000 ms after the one stored gets the same answer,
    even when an analyze request has logged a record in between. *)
Theorem statistics_served_stale (req : Request) (env1 env2 env3 : Env)
    (body : option JSValue) (st : State) :
  url req = "/statistics" ->
  String.eqb (method req) "OPTIONS" = false ->
  fresh (stats (cache st)) (t_check env1) = None ->
  t_check env3 - t_store env1 < CACHE_TTL ->
  snd (handler req env3
         (fst (onEnd toLowerCase body env2 (fst (handler req env1 st)))))
  = Statistics (summarize (threatLog st)).
Proof.
  intros Hu Hm Hf Ht. rewrite (statistics_miss _ _ _ Hu Hm Hf). cbn [fst].
  match goal with
  | |- context [onEnd toLowerCase body env2 ?s] =>
      destruct (onEnd_frame body env2 s) as [Hc _];
      set (st2 := fst (onEnd toLowerCase body env2 s)) in *
  end.
  rewrite (@statistics_hit req env3 st2 (summarize (threatLog st))
             (t_store env1) Hu Hm); [reflexivity | | exact Ht].
  rewrite Hc. reflexivity.
Qed.

(** X10. The analyze callback accepts a body exactly when its text is a
    string that is not blank and has at most 10000 characters, counted
    before trimming; it then answers with an analysis.  Any other body is
    answered with an error (400, or 500 when the body cannot be parsed) and
    leaves the state as it was. *)
Theorem analyze_validation (body : option JSValue) (env : Env) (st : State) :
  if accepted body
  then exists id num a p,
         snd (onEnd toLowerCase body env st) = Analyzed id num a p
  else onEnd toLowerCase body env st = (st, rejection body).
Proof.
  destruct body as [[| | | |input|]|]; try reflexivity.
  unfold accepted, rejection, onEnd.
  destruct (Z.eqb_spec (len (trim input)) 0) as [Hb|Hb].
  - rewrite orb_true_r. reflexivity.
  - assert (Hn : (len input =? 0) = false).
    { apply Z.eqb_neq. intros H. apply Hb. now apply trim_blank. }
    rewrite Hn. cbn [orb negb andb].
    rewrite Z.gtb_ltb, Z.ltb_antisym.
    destruct (len input <=? 10000); cbn [negb]; [|reflexivity].
    cbv zeta. cbn [snd]. do 4 eexists. reflexivity.
Qed.

(** X11. The prediction of an analyze response is made from one analysis at
    most.  For a text rated critical or high its probability is 20, or 26
    when the local hour is 0 to 5, its risk level is moderate and its text
    is "Low risk"; for any other text it is the empty prediction. *)
Theorem analyze_prediction (body : option JSValue) (env : Env)
    (st st' : State) (id num : JSString) (a : AnalysisResult)
    (p : Prediction) :
  onEnd toLowerCase body env st = (st', Analyzed id num a p) ->
  (isRisk (threat_level a) = false /\
   p = {| probability := 0; risk_level := "minimal";
          prediction := "No threat signals" |}) \/
  (isRisk (threat_level a) = true /\
   p = {| probability :=
            if getHours (t_hour env) (tza env) <=? 5 then 26 else 20;
          risk_level := "moderate"; prediction := "Low risk" |}).
Proof.
  unfold onEnd. destruct body as [[| | | |input|]|]; try discriminate.
  destruct ((len input =? 0) || (len (trim input) =? 0)); [discriminate|].
  destruct (len input >? 10000); [discriminate|].
  cbv zeta.
  remember (analyzeText toLowerCase (t_analyzed env)
              (slice0 5000 (trim input))) as an eqn:Ean.
  intros H. inversion H; subst st' id num a p; clear H.
  destruct (isRisk (threat_level an)); [right | left];
    (split; [reflexivity|]); [|reflexivity].
  rewrite calculateProbability_cons. cbv zeta.
  pose proof (getHours_range (t_hour env) (tza env)) as Hh.
  set (hour := getHours (t_hour env) (tza env)) in *.
  replace ((hour <? 6) || (hour >? 23)) with (hour <=? 5).
  - destruct (hour <=? 5); reflexivity.
  - rewrite Z.gtb_ltb.
    destruct (Z.leb_spec hour 5), (Z.ltb_spec hour 6), (Z.ltb_spec 23 hour);
      simpl; try reflexivity; lia.
Qed.

End RunProperties.

Lemma log_of_risk_records_witness :
  Forall riskRecord (threatLog st_kill) /\
  riskCount (threatLog st_kill) = len (threatLog st_kill) /\
  len (threatLog st_kill) = 3.
Proof.
  assert (Hr : reachable toLowerCaseAscii st_kill).
  { unfold st_kill.
    apply (reach_step (BodyEnd (Some (VString (str "kill"))) (env_at 2000))).
    apply (reach_step (Call statistics_get (env_at 1000))).
    apply reach_init. }
  destruct (log_of_risk_records Hr) as (H1 & H2 & _).
  split; [exact H1|]. split; [exact H2|]. vm_compute. reflexivity.
Defined.

Lemma step_frame_witness :
  requestCounts (fst (handler statistics_get env0 st0)) = requestCounts st0 /\
  snd (handler statistics_get env0 st0) <> TooManyRequests.
Proof.
  apply (proj1 (proj2 (step_frame toLowerCaseAscii
                         (Call statistics_get env0) st0))).
  discriminate.
Defined.

(** The statistics computed at 1 s are served again at 3 s, although the
    log has gained a third record at 2 s. *)
Lemma statistics_served_stale_witness :
  snd (handler statistics_get (env_at 3000) st_kill)
    = Statistics (summarize (threatLog st0)) /\
  total_threats (summarize (threatLog st0)) = 2 /\
  len (threatLog st_kill) = 3.
Proof.
  split; [|split; vm_compute; reflexivity].
  apply (@statistics_served_stale toLowerCaseAscii statistics_get
           (env_at 1000) (env_at 2000) (env_at 3000)
           (Some (VString (str "kill"))) st0); reflexivity.
Defined.

Lemma analyze_prediction_witness :
  let a := analyzeText toLowerCaseAscii 0 (str "kill") in
  let p := calculateProbability 0 [a] in
  (isRisk (threat_level a) = false /\
   p = {| probability := 0; risk_level := "minimal";
          prediction := "No threat signals" |}) \/
  (isRisk (threat_level a) = true /\
   p = {| probability := if getHours (t_hour env0) (tza env0) <=? 5
                         then 26 else 20;
          risk_level := "moderate"; prediction := "Low risk" |}).
Proof.
  intros a p.
  apply (@analyze_prediction toLowerCaseAscii
           (Some (VString (str "kill"))) env0 st0
           (fst (onEnd toLowerCaseAscii (Some (VString (str "kill"))) env0 st0))
           (randomId draw11) (newNumber draw11) a p).
  vm_compute. reflexivity.
Defined.

(** ** The identifiers, once more *)

Lemma newNumber_form_witness :
  exists suffix,
    newNumber draw11 = str "N-" ++ suffix /\
    len suffix = Z.min 8 (len draw11) /\
    forallb isUpperAlnum suffix = true.
Proof.
  apply (@newNumber_form draw11).
  repeat constructor; lia.
Defined.

(** ** The evidence of the scorer *)

Lemma suffixOf_cons (c : Z) (x s : JSString) :
  suffixOf x s -> suffixOf x (c :: s).
Proof. intros [p ->]. now exists (c :: p). Qed.

(** Whatever the matcher hands to its continuation is a rest of the
    string, so what a match leaves is one too. *)
Lemma rmatch_suffix (r : regex) :
  forall (s : JSString) (k : JSString -> option JSString) (x : JSString),
    (forall s' y, k s' = Some y -> suffixOf y s') ->
    rmatch r s k = Some x -> suffixOf x s.
Proof.
  induction r as [| c | | | | a IHa b IHb | a IHa b IHb | a IHa];
    intros s k x Hk; [cbn [rmatch] .. |].
  - apply Hk.
  - destruct s as [|c0 s']; [discriminate|].
    destruct (canonicalize c0 =? canonicalize c); [|discriminate].
    intros H. apply suffixOf_cons, Hk, H.
  - destruct s as [|c0 s']; [discriminate|].
    destruct (negb (isLineTerminator c0)); [|discriminate].
    intros H. apply suffixOf_cons, Hk, H.
  - destruct s as [|c0 s']; [discriminate|].
    destruct (isDigit c0); [|discriminate].
    intros H. apply suffixOf_cons, Hk, H.
  - destruct s as [|c0 s']; [discriminate|].
    destruct (isWhiteSpace c0); [|discriminate].
    intros H. apply suffixOf_cons, Hk, H.
  - intros H. eapply IHa; [|exact H].
    intros s' y Hy. eapply IHb; eauto.
  - destruct (rmatch a s k) eqn:E.
    + intros [= <-]. eapply IHa; eauto.
    + intros H. eapply IHb; eauto.
  - change (rmatch (Star a) s k) with
      ((fix loop (fuel : nat) (s0 : JSString) {struct fuel}
            : option JSString :=
          match fuel with
          | O => k s0
          | S fuel' =>
              match rmatch a s0 (fun s' =>
                      if (length s' <? length s0)%nat then loop fuel' s'
                      else None) with
              | Some y => Some y
              | None => k s0
              end
          end) (S (length s)) s).
    generalize (S (length s)). intros fuel. revert s x.
    induction fuel as [|fuel IHf]; intros s x; [apply Hk|].
    match goal with
    | |- context [rmatch a s ?k'] => destruct (rmatch a s k') eqn:E
    end.
    + intros [= <-]. eapply IHa; [|exact E].
      intros s' y. cbv beta.
      destruct (length s' <? length s)%nat; [apply IHf | discriminate].
    + apply Hk.
Qed.

Lemma matchHere_prefix (r : regex) (s m : JSString) :
  matchHere r s = Some m -> exists rest, s = m ++ rest.
Proof.
  unfold matchHere.
  destruct (rmatch r s (fun rest => Some rest)) as [rest|] eqn:E;
    [|discriminate].
  intros [= <-]. exists rest.
  apply rmatch_suffix in E.
  - destruct E as [p ->]. rewrite length_app.
    replace (length p + length rest - length rest)%nat with (length p) by lia.
    now rewrite firstn_app, firstn_all, Nat.sub_diag, app_nil_r.
  - intros s' y [= <-]. now exists [].
Qed.

Lemma regex_match_piece (r : regex) (text m : JSString) :
  regex_match r text = Some m -> piece m text.
Proof.
  induction text as [|c text IH]; cbn [regex_match].
  - destruct (matchHere r []) as [m'|] eqn:E; [|discriminate].
    intros [= <-]. apply matchHere_prefix in E. destruct E as [rest E].
    exists [], rest. exact E.
  - destruct (matchHere r (c :: text)) as [m'|] eqn:E.
    + intros [= <-]. apply matchHere_prefix in E. destruct E as [rest E].
      exists [], rest. exact E.
    + intros H. destruct (IH H) as (before & after & ->).
      exists (c :: before), after. reflexivity.
Qed.

Lemma pattern_loop_evidence (text : JSString) (ps : list Pattern) :
  forall acc,
    snd (fold_left (patternStep text) ps acc) =
    snd acc ++ flat_map (evidenceOf text) ps.
Proof.
  induction ps as [|p ps IH]; intros [tot dp]; cbn [fold_left flat_map].
  - now rewrite app_nil_r.
  - rewrite IH. unfold patternStep, evidenceOf.
    destruct (regex_match (p_regex p) text); cbn [snd].
    + now rewrite <- app_assoc.
    + reflexivity.
Qed.

Lemma evidence_types (text : JSString) (ps : list Pattern) :
  map type (flat_map (evidenceOf text) ps) =
  map p_type (filter (matchesText text) ps).
Proof.
  induction ps as [|p ps IH]; [reflexivity|].
  cbn [flat_map filter]. rewrite map_app, IH.
  unfold evidenceOf, matchesText.
  destruct (regex_match (p_regex p) text); reflexivity.
Qed.

Lemma evidence_pieces (text : JSString) (ps : list Pattern) :
  Forall (fun d => piece (matched d) text) (flat_map (evidenceOf text) ps).
Proof.
  induction ps as [|p ps IH]; [constructor|].
  cbn [flat_map]. apply Forall_app. split; [|exact IH].
  unfold evidenceOf.
  destruct (regex_match (p_regex p) text) as [m|] eqn:E; constructor;
    [|constructor].
  cbn [matched]. now apply regex_match_piece in E.
Qed.

Lemma sumZ_member (xs : list Z) (x : Z) :
  Forall (fun y => 0 <= y) xs -> In x xs -> x <= sumZ xs.
Proof.
  induction 1 as [|y xs Hy Hxs IH]; [intros []|].
  pose proof (sumZ_nonneg Hxs).
  simpl. intros [->|Hin]; [lia|]. specialize (IH Hin). lia.
Qed.

Lemma lexicon_floor :
  Forall (fun e : JSString * Z => 45 <= snd e)
         (Object_entries VIOLENCE_KEYWORDS).
Proof.
  apply Forall_forall. intros e He.
  assert (H : forallb (fun e : JSString * Z => 45 <=? snd e)
                (Object_entries VIOLENCE_KEYWORDS) = true)
    by (vm_compute; reflexivity).
  rewrite forallb_forall in H. specialize (H e He). lia.
Qed.

Lemma jsstr_eqb_eq (a b : JSString) : jsstr_eqb a b = true -> a = b.
Proof.
  revert b. induction a as [|x a IH]; intros [|y b]; simpl;
    try discriminate; [reflexivity|].
  rewrite andb_true_iff, Z.eqb_eq. intros [-> H]. f_equal. auto.
Qed.

Lemma findCategory_listed (cats : list (string * list JSString))
    (kw : JSString) (dflt : string) :
  findCategory cats kw dflt = dflt \/
  exists kws, In (findCategory cats kw dflt, kws) cats /\ In kw kws.
Proof.
  induction cats as [|[cat kws] cats IH]; [now left|].
  cbn [findCategory].
  destruct (array_includes kws kw) eqn:E.
  - right. exists kws. split; [now left|].
    unfold array_includes in E. apply existsb_exists in E.
    destruct E as (x & Hx & Heq). apply jsstr_eqb_eq in Heq. now subst.
  - destruct IH as [IH|(kws' & Hin & Hkw)]; [now left|].
    right. exists kws'. split; [now right | exact Hkw].
Qed.

Lemma In_firstn {A} (n : nat) (xs : list A) (x : A) :
  In x (firstn n xs) -> In x xs.
Proof.
  intros H. rewrite <- (firstn_skipn n xs). apply in_or_app. now left.
Qed.

Lemma In_keywordMatches (textLower : JSString) (e : JSString * Z) :
  In e (keywordMatches textLower) ->
  In e (Object_entries VIOLENCE_KEYWORDS) /\ includes textLower (fst e) = true.
Proof.
  unfold keywordMatches. intros H. apply filter_In in H. exact H.
Qed.

Section EvidenceProperties.

Variable toLowerCase : JSString -> JSString.

(** X12. The pattern pass reports each rule of the pattern set once at
    most, in the order of the set: the types of [detected_patterns] are the
    types of the rules that match the text, and every [matched] string is a
    piece of the text as it was given (not lower-cased). *)
Theorem detected_patterns_evidence (now : Z) (text : JSString) :
  let r := analyzeText toLowerCase now text in
  detected_patterns r = flat_map (evidenceOf text) PATTERNS /\
  map type (detected_patterns r) = map p_type (patternMatches text) /\
  Forall (fun d => piece (matched d) text) (detected_patterns r).
Proof.
  cbv zeta.
  assert (E : detected_patterns (analyzeText toLowerCase now text)
              = flat_map (evidenceOf text) PATTERNS).
  { unfold analyzeText. cbv zeta. cbn [detected_patterns].
    unfold patternPass. now rewrite pattern_loop_evidence. }
  rewrite E. split; [reflexivity|].
  split; [apply evidence_types | apply evidence_pieces].
Qed.

(** X13. A text in which a keyword of the lexicon occurs is never rated
    low: its score is at least the weight of the keyword, capped at 100,
    and the least weight of the lexicon is 45. *)
Theorem keyword_raises_level (now : Z) (text : JSString) (e : JSString * Z) :
  In e (Object_entries VIOLENCE_KEYWORDS) ->
  includes (toLowerCase text) (fst e) = true ->
  let r := analyzeText toLowerCase now text in
  Z.min (snd e) 100 <= threat_score r /\
  45 <= threat_score r /\
  threat_level r <> low.
Proof.
  intros He Hin r. subst r.
  assert (Hk : snd e <= keywordScore (toLowerCase text)).
  { apply sumZ_member.
    - apply Forall_map, Forall_filter.
      eapply Forall_impl; [|apply lexicon_weights]. simpl. intros; lia.
    - apply in_map, filter_In. now split. }
  pose proof (patternScore_nonneg text).
  pose proof (scriptBonus_bounds text).
  assert (H45 : 45 <= snd e).
  { pose proof lexicon_floor as Hf. rewrite Forall_forall in Hf.
    now apply Hf. }
  assert (Hs : Z.min (snd e) 100
               <= threat_score (analyzeText toLowerCase now text)
               /\ 45 <= threat_score (analyzeText toLowerCase now text)).
  { rewrite analyzeText_score. lia. }
  destruct Hs as [Hs1 Hs2]. split; [exact Hs1|]. split; [exact Hs2|].
  rewrite analyzeText_level.
  destruct (levelOfScore_cases
              (threat_score (analyzeText toLowerCase now text)))
    as (Hc & Hh & Hm & _).
  destruct (Z.le_gt_cases 80 (threat_score (analyzeText toLowerCase now text)));
    [rewrite Hc by lia; discriminate|].
  destruct (Z.le_gt_cases 60 (threat_score (analyzeText toLowerCase now text)));
    [rewrite Hh by lia; discriminate|].
  rewrite Hm by lia. discriminate.
Qed.

(** X14. Ideographs alone raise the score, whatever the text says: the
    score is at least 10 for each ideograph, up to 50, so that a text with
    four ideographs or more is never rated low. *)
Theorem ideographs_raise_level (now : Z) (text : JSString) :
  let r := analyzeText toLowerCase now text in
  Z.min (countChinese text * 10) 50 <= threat_score r /\
  (4 <= countChinese text -> 40 <= threat_score r /\ threat_level r <> low).
Proof.
  cbv zeta.
  pose proof (keywordScore_nonneg (toLowerCase text)).
  pose proof (patternScore_nonneg text).
  assert (Hs : Z.min (countChinese text * 10) 50
               <= threat_score (analyzeText toLowerCase now text)).
  { rewrite analyzeText_score. unfold scriptBonus. lia. }
  split; [exact Hs|]. intros H4.
  assert (H40 : 40 <= threat_score (analyzeText toLowerCase now text)) by lia.
  split; [exact H40|].
  rewrite analyzeText_level.
  destruct (levelOfScore_cases
              (threat_score (analyzeText toLowerCase now text)))
    as (Hc & Hh & Hm & _).
  destruct (Z.le_gt_cases 80 (threat_score (analyzeText toLowerCase now text)));
    [rewrite Hc by lia; discriminate|].
  destruct (Z.le_gt_cases 60 (threat_score (analyzeText toLowerCase now text)));
    [rewrite Hh by lia; discriminate|].
  rewrite Hm by lia. discriminate.
Qed.

(** X15. Every entry of [found_threats] is tagged consistently: its score
    lies between 45 and 100, its language is [zh] exactly when its keyword
    holds an ideograph, and its category is ["general_threat"] or a
    category of [CATEGORIES] whose list holds the keyword. *)
Theorem found_threats_tags (now : Z) (text : JSString) (ft : FoundThreat) :
  In ft (found_threats (analyzeText toLowerCase now text)) ->
  45 <= score ft <= 100 /\
  language ft = (if existsb isChinese (keyword ft) then zh else en) /\
  (category ft = "general_threat" \/
   exists kws, In (category ft, kws) CATEGORIES /\ In (keyword ft) kws).
Proof.
  rewrite analyzeText_found. unfold slice0 at 1. intros Hin.
  apply In_firstn, in_app_or in Hin. destruct Hin as [Hin|Hin].
  - apply in_map_iff in Hin. destruct Hin as (e & <- & He).
    apply In_keywordMatches in He. destruct He as [He _].
    pose proof lexicon_weights as Hw. rewrite Forall_forall in Hw.
    pose proof lexicon_floor as Hf. rewrite Forall_forall in Hf.
    specialize (Hw e He). specialize (Hf e He).
    unfold threatOfEntry. cbn [score language category keyword].
    split; [lia|]. split; [reflexivity|]. apply findCategory_listed.
  - apply in_map_iff in Hin. destruct Hin as (c & <- & Hc).
    apply In_firstn, filter_In in Hc. destruct Hc as [_ Hc].
    unfold charThreat. cbn [score language category keyword existsb].
    rewrite Hc. split; [lia|]. split; [reflexivity|]. now left.
Qed.

End EvidenceProperties.

Lemma keyword_raises_level_witness :
  let r := analyzeText toLowerCaseAscii 0 (str "Phishing mail") in
  Z.min 45 100 <= threat_score r /\ 45 <= threat_score r /\
  threat_level r <> low.
Proof.
  apply (@keyword_raises_level toLowerCaseAscii 0 (str "Phishing mail")
           (str "phishing", 45)).
  - vm_compute. tauto.
  - vm_compute. reflexivity.
Defined.

Lemma ideographs_raise_level_witness :
  40 <= threat_score (analyzeText toLowerCaseAscii 0 (repeat 19968 4)) /\
  threat_level (analyzeText toLowerCaseAscii 0 (repeat 19968 4)) <> low.
Proof.
  apply (proj2 (ideographs_raise_level toLowerCaseAscii 0 (repeat 19968 4))).
  vm_compute. discriminate.
Defined.

Lemma found_threats_tags_witness :
  let ft := {| keyword := str "kill"; score := 95;
               category := "physical_violence"; language := en |} in
  45 <= score ft <= 100 /\
  language ft = (if existsb isChinese (keyword ft) then zh else en) /\
  (category ft = "general_threat" \/
   exists kws, In (category ft, kws) CATEGORIES /\ In (keyword ft) kws).
Proof.
  intros ft.
  apply (@found_threats_tags toLowerCaseAscii 0 (str "kill") ft).
  vm_compute. now left.
Defined.

(** ** The case of the letters *)

Ltac decide_comparisons :=
  repeat match goal with
         | |- context [?a =? ?b] =>
             first [ rewrite (proj2 (Z.eqb_neq a b)) by lia
                   | rewrite (proj2 (Z.eqb_eq a b)) by lia ]
         | |- context [?a <=? ?b] =>
             first [ rewrite (proj2 (Z.leb_gt a b)) by lia
                   | rewrite (proj2 (Z.leb_le a b)) by lia ]
         end;
  reflexivity.

Lemma upperAscii_cases (c : Z) :
  upperAscii c = c \/ (97 <= c <= 122 /\ upperAscii c = c - 32).
Proof.
  unfold upperAscii.
  destruct (Z.leb_spec 97 c), (Z.leb_spec c 122); simpl;
    try (left; reflexivity).
  right. split; [lia | reflexivity].
Qed.

Lemma classes_of_letters (c : Z) :
  65 <= c <= 122 ->
  isLineTerminator c = false /\ isDigit c = false /\
  isWhiteSpace c = false /\ isChinese c = false.
Proof.
  intros H. unfold isLineTerminator, isDigit, isWhiteSpace, isChinese.
  repeat split; decide_comparisons.
Qed.

Lemma class_upper (P : Z -> bool) (c : Z) :
  (forall x, 65 <= x <= 122 -> P x = false) -> P (upperAscii c) = P c.
Proof.
  intros HP. destruct (upperAscii_cases c) as [->|[Hc ->]]; [reflexivity|].
  rewrite !HP by lia. reflexivity.
Qed.

Lemma canonicalize_upper (c : Z) :
  canonicalize (upperAscii c) = canonicalize c.
Proof.
  unfold canonicalize.
  destruct (upperAscii_cases c) as [E|[Hc E]]; rewrite !E; [reflexivity|].
  unfold upperAscii. decide_comparisons.
Qed.

Lemma lowerAscii_upper (c : Z) : lowerAscii (upperAscii c) = lowerAscii c.
Proof.
  destruct (upperAscii_cases c) as [->|[Hc ->]]; [reflexivity|].
  unfold lowerAscii.
  rewrite (proj2 (Z.leb_le 65 (c - 32))), (proj2 (Z.leb_le (c - 32) 90)),
          (proj2 (Z.leb_gt c 90)), andb_false_r by lia.
  simpl. lia.
Qed.

Lemma chinese_upper (text : JSString) :
  filter isChinese (toUpperCaseAscii text) = filter isChinese text.
Proof.
  unfold toUpperCaseAscii.
  induction text as [|c text IH]; [reflexivity|].
  cbn [map filter]. rewrite IH.
  destruct (upperAscii_cases c) as [->|[Hc ->]]; [reflexivity|].
  destruct (@classes_of_letters c) as (_ & _ & _ & H1); [lia|].
  destruct (@classes_of_letters (c - 32)) as (_ & _ & _ & H2); [lia|].
  now rewrite H1, H2.
Qed.

(** The matcher does not see the case of the ASCII letters of the text:
    on the text in upper case it takes the same way and leaves the same
    rest, in upper case. *)
Lemma rmatch_upper (r : regex) :
  forall (s : JSString) (k k' : JSString -> option JSString),
    (forall s', k' (toUpperCaseAscii s')
                = option_map toUpperCaseAscii (k s')) ->
    rmatch r (toUpperCaseAscii s) k'
    = option_map toUpperCaseAscii (rmatch r s k).
Proof.
  induction r as [| c | | | | a IHa b IHb | a IHa b IHb | a IHa];
    intros s k k' Hk; [cbn [rmatch] .. |].
  - apply Hk.
  - destruct s as [|c0 s']; [reflexivity|]. cbn [toUpperCaseAscii map].
    rewrite canonicalize_upper.
    destruct (canonicalize c0 =? canonicalize c); [apply Hk | reflexivity].
  - destruct s as [|c0 s']; [reflexivity|]. cbn [toUpperCaseAscii map].
    rewrite (class_upper isLineTerminator)
      by (intros x Hx; apply (classes_of_letters Hx)).
    destruct (negb (isLineTerminator c0)); [apply Hk | reflexivity].
  - destruct s as [|c0 s']; [reflexivity|]. cbn [toUpperCaseAscii map].
    rewrite (class_upper isDigit)
      by (intros x Hx; apply (classes_of_letters Hx)).
    destruct (isDigit c0); [apply Hk | reflexivity].
  - destruct s as [|c0 s']; [reflexivity|]. cbn [toUpperCaseAscii map].
    rewrite (class_upper isWhiteSpace)
      by (intros x Hx; apply (classes_of_letters Hx)).
    destruct (isWhiteSpace c0); [apply Hk | reflexivity].
  - apply IHa. intros s'. now apply IHb.
  - rewrite (IHa s k k' Hk), (IHb s k k' Hk).
    destruct (rmatch a s k); reflexivity.
  - pose (loop := fix loop (fuel : nat) (s0 : JSString) {struct fuel}
                      : option JSString :=
            match fuel with
            | O => k s0
            | S fuel' =>
                match rmatch a s0 (fun s' =>
                        if (length s' <? length s0)%nat then loop fuel' s'
                        else None) with
                | Some y => Some y
                | None => k s0
                end
            end).
    pose (loop' := fix loop (fuel : nat) (s0 : JSString) {struct fuel}
                       : option JSString :=
            match fuel with
            | O => k' s0
            | S fuel' =>
                match rmatch a s0 (fun s' =>
                        if (length s' <? length s0)%nat then loop fuel' s'
                        else None) with
                | Some y => Some y
                | None => k' s0
                end
            end).
    assert (Hlen : forall t, length (toUpperCaseAscii t) = length t)
      by (intros t; unfold toUpperCaseAscii; apply length_map).
    assert (Hloop : forall fuel s0,
               loop' fuel (toUpperCaseAscii s0)
               = option_map toUpperCaseAscii (loop fuel s0)).
    { induction fuel as [|fuel IHf]; intros s0; [apply Hk|].
      change (loop' (S fuel) (toUpperCaseAscii s0)) with
        (match rmatch a (toUpperCaseAscii s0) (fun s' =>
                 if (length s' <? length (toUpperCaseAscii s0))%nat
                 then loop' fuel s' else None) with
         | Some y => Some y
         | None => k' (toUpperCaseAscii s0)
         end).
      change (loop (S fuel) s0) with
        (match rmatch a s0 (fun s' =>
                 if (length s' <? length s0)%nat
                 then loop fuel s' else None) with
         | Some y => Some y
         | None => k s0
         end).
      rewrite (IHa s0
                 (fun s' => if (length s' <? length s0)%nat
                            then loop fuel s' else None)
                 (fun s' => if (length s' <? length (toUpperCaseAscii s0))%nat
                            then loop' fuel s' else None)).
      - destruct (rmatch a s0 _); [reflexivity | apply Hk].
      - intros s'. cbv beta. rewrite !Hlen.
        destruct (length s' <? length s0)%nat; [apply IHf | reflexivity]. }
    change (rmatch (Star a) (toUpperCaseAscii s) k')
      with (loop' (S (length (toUpperCaseAscii s))) (toUpperCaseAscii s)).
    change (rmatch (Star a) s k) with (loop (S (length s)) s).
    rewrite Hlen. apply Hloop.
Qed.

Lemma matchHere_upper (r : regex) (s : JSString) :
  matchHere r (toUpperCaseAscii s)
  = option_map toUpperCaseAscii (matchHere r s).
Proof.
  unfold matchHere.
  rewrite (@rmatch_upper r s (fun rest => Some rest) (fun rest => Some rest))
    by reflexivity.
  destruct (rmatch r s (fun rest => Some rest)) as [rest|]; [|reflexivity].
  cbn [option_map]. unfold toUpperCaseAscii.
  now rewrite !length_map, firstn_map.
Qed.

Lemma regex_match_upper (r : regex) (text : JSString) :
  regex_match r (toUpperCaseAscii text)
  = option_map toUpperCaseAscii (regex_match r text).
Proof.
  induction text as [|c text IH].
  - pose proof (matchHere_upper r []) as H.
    unfold toUpperCaseAscii in *. cbn [map regex_match] in *.
    destruct (matchHere r []) as [m|]; [|reflexivity].
    cbn [option_map] in *. exact H.
  - pose proof (matchHere_upper r (c :: text)) as H.
    unfold toUpperCaseAscii in *. cbn [map regex_match] in *.
    rewrite H.
    destruct (matchHere r (c :: text)); [reflexivity | exact IH].
Qed.

Lemma evidence_upper (text : JSString) (ps : list Pattern) :
  flat_map (evidenceOf (toUpperCaseAscii text)) ps
  = map upperEvidence (flat_map (evidenceOf text) ps).
Proof.
  induction ps as [|p ps IH]; [reflexivity|].
  cbn [flat_map]. rewrite map_app, IH. f_equal.
  unfold evidenceOf. rewrite regex_match_upper.
  destruct (regex_match (p_regex p) text); reflexivity.
Qed.

Lemma patternMatches_upper (text : JSString) :
  patternMatches (toUpperCaseAscii text) = patternMatches text.
Proof.
  unfold patternMatches. apply filter_ext. intros p.
  unfold matchesText. rewrite regex_match_upper.
  destruct (regex_match (p_regex p) text); reflexivity.
Qed.

Section CaseProperties.

Variable toLowerCase : JSString -> JSString.

(** X16. The rating does not depend on the case of the ASCII letters.  For
    a text whose lower-case form is that of its ASCII upper-casing (as is
    the case of every text for the lower-casing of the engine), the text
    and its upper-casing get the same score, level and found threats, and
    the same rules match, on the same characters. *)
Theorem rating_ignores_ascii_case (now : Z) (text : JSString) :
  toLowerCase (toUpperCaseAscii text) = toLowerCase text ->
  let r := analyzeText toLowerCase now text in
  let r' := analyzeText toLowerCase now (toUpperCaseAscii text) in
  threat_score r' = threat_score r /\
  threat_level r' = threat_level r /\
  found_threats r' = found_threats r /\
  detected_patterns r' = map upperEvidence (detected_patterns r).
Proof.
  intros Hlow. cbv zeta.
  assert (Hs : threat_score (analyzeText toLowerCase now (toUpperCaseAscii text))
               = threat_score (analyzeText toLowerCase now text)).
  { rewrite !analyzeText_score, Hlow.
    unfold patternScore, scriptBonus, countChinese.
    now rewrite patternMatches_upper, chinese_upper. }
  split; [exact Hs|]. split; [now rewrite !analyzeText_level, Hs|].
  split; [now rewrite !analyzeText_found, Hlow, chinese_upper|].
  unfold analyzeText. cbv zeta. cbn [detected_patterns].
  unfold patternPass. rewrite !pattern_loop_evidence.
  cbn [snd app]. apply evidence_upper.
Qed.

End CaseProperties.

Lemma rating_ignores_ascii_case_witness :
  let r := analyzeText toLowerCaseAscii 0 (str "kill my boss") in
  let r' := analyzeText toLowerCaseAscii 0
              (toUpperCaseAscii (str "kill my boss")) in
  threat_score r' = threat_score r /\
  threat_level r' = threat_level r /\
  found_threats r' = found_threats r /\
  detected_patterns r' = map upperEvidence (detected_patterns r).
Proof.
  apply (@rating_ignores_ascii_case toLowerCaseAscii 0 (str "kill my boss")).
  vm_compute. reflexivity.
Defined.

(** ** The estimator, once more *)

Lemma probability_value {A} (hour : Z) (l : list A) :
  probability (calculateProbability hour l) =
  Z.min ((if (hour <? 6) || (hour >? 23) then 26 else 20) * len l) 100.
Proof.
  destruct l as [|a l].
  - cbn. destruct ((hour <? 6) || (hour >? 23)); reflexivity.
  - rewrite calculateProbability_cons. reflexivity.
Qed.

(** X17. The probability of the estimator lies between 0 and 100, does not
    decrease when analyses are added, and from five analyses on it is 100,
    with the risk level extreme and the prediction "HIGH CRIME
    PROBABILITY", at any hour. *)
Theorem probability_bounds {A} (hour : Z) (l1 l2 : list A) :
  0 <= probability (calculateProbability hour l1) <= 100 /\
  (len l1 <= len l2 ->
   probability (calculateProbability hour l1)
   <= probability (calculateProbability hour l2)) /\
  (5 <= len l1 ->
   calculateProbability hour l1 =
   {| probability := 100; risk_level := "extreme";
      prediction := "HIGH CRIME PROBABILITY" |}).
Proof.
  pose proof (len_nonneg l1) as H1. pose proof (len_nonneg l2) as H2.
  rewrite !probability_value.
  split; [|split].
  - destruct ((hour <? 6) || (hour >? 23)); lia.
  - intros Hle. destruct ((hour <? 6) || (hour >? 23)); lia.
  - intros H5. destruct l1 as [|a l1]; [unfold len in H5; simpl in H5; lia|].
    rewrite calculateProbability_cons. cbv zeta.
    replace (Z.min ((if (hour <? 6) || (hour >? 23) then 26 else 20)
                    * len (a :: l1)) 100) with 100
      by (destruct ((hour <? 6) || (hour >? 23)); lia).
    reflexivity.
Qed.

Lemma probability_bounds_witness :
  probability (calculateProbability 12 [1; 2])
  <= probability (calculateProbability 12 [1; 2; 3]) /\
  calculateProbability 12 [1; 2; 3; 4; 5] =
  {| probability := 100; risk_level := "extreme";
     prediction := "HIGH CRIME PROBABILITY" |}.
Proof.
  split.
  - apply (proj1 (proj2 (@probability_bounds Z 12 [1; 2] [1; 2; 3]))).
    vm_compute. discriminate.
  - apply (proj2 (proj2 (@probability_bounds Z 12 [1; 2; 3; 4; 5] []))).
    vm_compute. discriminate.
Defined.
